(** * EcuUart on the LPC15xx: a shallow embedding of the K-line transport

    Source: [src/drv/lpc15xx/EcuUartLPC15xx.cpp].

    The driver is a handful of short routines that talk to three
    peripherals through memory-mapped registers: the switch matrix
    (pin multiplexing), USART1 and the SysTick countdown timer, plus the
    GPIO block reached through [GpioDrv.h].  Every routine is embedded as
    a computation in a small state monad over the machine; the two
    busy-wait loops ([send], [getEcho]) take a fuel argument and fail when
    it runs out.  [init], which hands the peripheral to the vendor's ROM
    routine, is left out: nothing below depends on it.

    The peripherals run on their own: a byte arrives, the transmitter
    drains, the timer wraps.  That activity is a schedule of hardware
    events indexed by bus slot; each register access of the program
    occupies one slot, and the events of that slot are applied just
    before the access is served. *)

From Stdlib Require Import ZArith List Bool Lia.
From stdpp Require Import base decidable countable functions gmap.
Import ListNotations.

Local Open Scope Z_scope.

(** ** Registers and pins *)

Inductive Reg : Set :=
  | SWM_PINASSIGN1
  | SYSCON_SYSAHBCLKCTRL1
  | SYSCON_PRESETCTRL1
  | SYSCON_UARTCLKDIV
  | SysTick_LOAD
  | SysTick_VAL
  | SysTick_CTRL
  | USART1_STAT
  | USART1_RXDAT
  | USART1_TXDAT.

#[global] Instance Reg_eq_dec : EqDecision Reg.
Proof. solve_decision. Defined.

(** Modelled from the spec: the pin modes and directions of [GpioDrv.h]
    (not in src/): a pin is plain, has hysteresis, or is open-drain; it is
    an input or an output.  The literal [0] the driver passes for "no
    option" is [GPIO_PLAIN]. *)
Inductive PinMode : Set := GPIO_PLAIN | GPIO_HYSTERESIS | GPIO_OPEN_DRAIN.
Inductive PinDir : Set := GPIO_INPUT | GPIO_OUTPUT.

Abbreviation Pin := (Z * Z)%type (only parsing).

(** ** Build variants

    [INVERT_OUTPUT] and [OPEN_DRAIN] are preprocessor switches; a build is
    a choice of both. *)

Record Build : Set := mkBuild { INVERT_OUTPUT : bool; OPEN_DRAIN : bool }.

(** The switches as the file sets them: inversion commented out,
    open-drain defined. *)
Definition stock_build : Build :=
  {| INVERT_OUTPUT := false; OPEN_DRAIN := true |}.

(** ** Constants of the translation unit *)

Definition TxPin : Z := 8.
Definition RxPin : Z := 7.
Definition RxPort : Z := 0.
Definition TxPort : Z := 0.

Definition PinAssign : Z :=
  Z.lor (Z.shiftl RxPin 16 + RxPort * 32) (Z.shiftl TxPin 8 + TxPort * 32).

Definition EchoTimeout : Z := 20.

(** Modelled from the spec: the status masks of [UartLPC15xx.h] (not in
    src/), "transmit-ready and receive-ready bits" of the status register;
    on the LPC15xx USART these are bit 0 and bit 2. *)
Definition UART_STAT_RXRDY : Z := Z.shiftl 1 0.
Definition UART_STAT_TXRDY : Z := Z.shiftl 1 2.

(** Modelled from the spec: the SysTick control masks of the CMSIS core
    header (not in src/): enable is bit 0, clock source is bit 2. *)
Definition SysTick_CTRL_ENABLE_Msk : Z := Z.shiftl 1 0.
Definition SysTick_CTRL_CLKSOURCE_Msk : Z := Z.shiftl 1 2.

(** The literals the driver tests and writes itself. *)
Definition COUNTFLAG : Z := 0x10000.
Definition ERR_FLAGS : Z := 0x6000.

(** ** The machine

    The driver keeps no state of its own; everything lives in the
    peripherals.  The switch matrix and SYSCON registers hold what was
    last written to them.  USART1 and SysTick change under the program's
    feet, and some of their registers react to being read or written. *)

Record Usart : Set := mkUsart {
  stat : Z;            (* STAT *)
  rxdat : Z;           (* receive holding register *)
  sent : list Z        (* what went out through TXDAT, oldest first *)
}.

(** SysTick: reload value, current value, control and status. *)
Record Timer : Set := mkTimer { load : Z; val : Z; ctrl : Z }.

(** Modelled from the spec: the state behind [GpioDrv.h] (not in src/),
    per (port, pin): electrical mode, direction, driven level, level seen
    on input. *)
Record Gpio : Type := mkGpio {
  pin_mode : gmap Pin PinMode;
  pin_dir : gmap Pin PinDir;
  pin_out : gmap Pin Z;
  pin_in : gmap Pin Z
}.

(** What the hardware does on its own. *)
Inductive HwEvent : Set :=
  | RxByte (b : Z) (framerr parityerr : bool)   (* a character was received *)
  | TxReady                                      (* the transmit holding register drained *)
  | SysTickWrap                                  (* the countdown reached zero *)
  | PinLevel (port pin level : Z).               (* an input pin changed *)

Record World : Type := mkWorld {
  SystemCoreClock : Z;
  mem : Reg -> Z;                  (* registers that simply hold what was written *)
  usart : Usart;
  systick : Timer;
  gpio : Gpio;
  now : nat;                       (* bus slots elapsed *)
  hw : nat -> list HwEvent         (* hardware activity, per slot *)
}.

Definition with_mem (m : Reg -> Z) (w : World) : World :=
  mkWorld (SystemCoreClock w) m (usart w) (systick w) (gpio w) (now w) (hw w).
Definition with_usart (u : Usart) (w : World) : World :=
  mkWorld (SystemCoreClock w) (mem w) u (systick w) (gpio w) (now w) (hw w).
Definition with_systick (t : Timer) (w : World) : World :=
  mkWorld (SystemCoreClock w) (mem w) (usart w) t (gpio w) (now w) (hw w).
Definition with_gpio (g : Gpio) (w : World) : World :=
  mkWorld (SystemCoreClock w) (mem w) (usart w) (systick w) g (now w) (hw w).
Definition with_now (n : nat) (w : World) : World :=
  mkWorld (SystemCoreClock w) (mem w) (usart w) (systick w) (gpio w) n (hw w).

(** *** Status predicates *)

(** The C test [v & mask] used as a condition. *)
Definition has_bits (v mask : Z) : bool := negb (Z.land v mask =? 0).

Definition rx_ready (w : World) : bool := has_bits (stat (usart w)) UART_STAT_RXRDY.
Definition tx_ready (w : World) : bool := has_bits (stat (usart w)) UART_STAT_TXRDY.
Definition rx_error (w : World) : bool := has_bits (stat (usart w)) ERR_FLAGS.
Definition expired (w : World) : bool := has_bits (ctrl (systick w)) COUNTFLAG.

(** *** Hardware activity

    A character that arrives while the holding register is free is put
    there, with receive-ready and its error flags raised; one that arrives
    while the register is still occupied is lost and raises the overrun
    flag.  The countdown raises the count flag when it wraps, if it is
    enabled. *)

Definition OVERRUNINT : Z := Z.shiftl 1 8.
Definition FRAMERRINT : Z := Z.shiftl 1 13.
Definition PARITYERRINT : Z := Z.shiftl 1 14.

(** Status bits of USART1 that a write of 1 clears. *)
Definition STAT_W1C : Z := 0x1F920.

Definition err_bits (framerr parityerr : bool) : Z :=
  Z.lor (if framerr then FRAMERRINT else 0) (if parityerr then PARITYERRINT else 0).

Definition usart_receive (b : Z) (fe pe : bool) (u : Usart) : Usart :=
  if has_bits (stat u) UART_STAT_RXRDY
  then mkUsart (Z.lor (stat u) OVERRUNINT) (rxdat u) (sent u)
  else mkUsart (Z.lor (stat u) (Z.lor UART_STAT_RXRDY (err_bits fe pe))) b (sent u).

Definition hw_event (ev : HwEvent) (w : World) : World :=
  match ev with
  | RxByte b fe pe => with_usart (usart_receive b fe pe (usart w)) w
  | TxReady =>
      with_usart (mkUsart (Z.lor (stat (usart w)) UART_STAT_TXRDY)
                          (rxdat (usart w)) (sent (usart w))) w
  | SysTickWrap =>
      if has_bits (ctrl (systick w)) SysTick_CTRL_ENABLE_Msk
      then with_systick (mkTimer (load (systick w)) (val (systick w))
                                 (Z.lor (ctrl (systick w)) COUNTFLAG)) w
      else w
  | PinLevel port pin level =>
      with_gpio (mkGpio (pin_mode (gpio w)) (pin_dir (gpio w)) (pin_out (gpio w))
                        (<[(port, pin) := level]> (pin_in (gpio w)))) w
  end.

Definition hw_events (evs : list HwEvent) (w : World) : World :=
  fold_left (fun w ev => hw_event ev w) evs w.

(** One bus slot passes: the slot's events happen, the clock advances. *)
Definition hw_step (w : World) : World :=
  with_now (S (now w)) (hw_events (hw w (now w)) w).

(** [k] slots pass with no access by the program. *)
Fixpoint elapse (k : nat) (w : World) : World :=
  match k with
  | O => w
  | S k' => elapse k' (hw_step w)
  end.

(** *** Register semantics

    Reading the receive register empties it (receive-ready drops); reading
    the timer control register clears the count flag.  Writing the status
    register clears the write-one-to-clear flags that are set in the value
    written and nothing else; writing the transmit register sends the
    value and drops transmit-ready; any write to the timer's current value
    zeroes it and clears the count flag; the timer control register takes
    its three low bits from the value written and keeps the count flag. *)

Definition reg_read (r : Reg) (w : World) : Z * World :=
  match r with
  | USART1_STAT => (stat (usart w), w)
  | USART1_RXDAT =>
      (rxdat (usart w),
       with_usart (mkUsart (Z.ldiff (stat (usart w)) UART_STAT_RXRDY)
                           (rxdat (usart w)) (sent (usart w))) w)
  | USART1_TXDAT => (0, w)
  | SysTick_LOAD => (load (systick w), w)
  | SysTick_VAL => (val (systick w), w)
  | SysTick_CTRL =>
      (ctrl (systick w),
       with_systick (mkTimer (load (systick w)) (val (systick w))
                             (Z.ldiff (ctrl (systick w)) COUNTFLAG)) w)
  | _ => (mem w r, w)
  end.

Definition reg_write (r : Reg) (v : Z) (w : World) : World :=
  match r with
  | USART1_STAT =>
      with_usart (mkUsart (Z.ldiff (stat (usart w)) (Z.land v STAT_W1C))
                          (rxdat (usart w)) (sent (usart w))) w
  | USART1_RXDAT => w
  | USART1_TXDAT =>
      with_usart (mkUsart (Z.ldiff (stat (usart w)) UART_STAT_TXRDY)
                          (rxdat (usart w)) (sent (usart w) ++ [v])) w
  | SysTick_LOAD =>
      with_systick (mkTimer (Z.land v 0xFFFFFF) (val (systick w)) (ctrl (systick w))) w
  | SysTick_VAL =>
      with_systick (mkTimer (load (systick w)) 0
                            (Z.ldiff (ctrl (systick w)) COUNTFLAG)) w
  | SysTick_CTRL =>
      with_systick (mkTimer (load (systick w)) (val (systick w))
                            (Z.lor (Z.land v 7) (Z.land (ctrl (systick w)) COUNTFLAG))) w
  | _ => with_mem (<[r := v]> (mem w)) w
  end.

(** ** Programs *)

Inductive Access : Set :=
  | Rd (r : Reg) (v : Z)
  | Wr (r : Reg) (v : Z)
  | PinCfg (port pin : Z) (m : PinMode)
  | PinDirSet (port pin : Z) (d : PinDir)
  | PinWr (port pin v : Z)
  | PinRd (port pin v : Z).

Record Sys : Type := mkSys { world : World; trace : list Access }.

(** State, plus failure for a loop that runs out of fuel. *)
Definition M (A : Type) : Type := Sys -> option (A * Sys).

Definition ret {A} (a : A) : M A := fun s => Some (a, s).
Definition bind {A B} (m : M A) (k : A -> M B) : M B :=
  fun s => match m s with
           | Some (a, s') => k a s'
           | None => None
           end.
Definition out_of_fuel {A} : M A := fun _ => None.

Notation "x <- m ;; k" := (bind m (fun x => k))
  (at level 100, m at next level, right associativity).
Notation "m ;; k" := (bind m (fun _ => k))
  (at level 100, right associativity).

(** A bus access: the slot's hardware events, then the access, logged. *)
Definition access {A} (f : World -> A * World) (ev : A -> Access) : M A :=
  fun s =>
    let (a, w) := f (hw_step (world s)) in
    Some (a, mkSys w (trace s ++ [ev a])).

Definition rd (r : Reg) : M Z := access (reg_read r) (Rd r).
Definition wr (r : Reg) (v : Z) : M unit :=
  access (fun w => (tt, reg_write r v w)) (fun _ => Wr r v).

(** Reading a global variable is not a bus access. *)
Definition core_clock : M Z := fun s => Some (SystemCoreClock (world s), s).

(** *** The platform layer

    Modelled from the spec: the helpers of [UartLPC15xx.h] and [GpioDrv.h]
    (not in src/).  The UART helpers read the status register, write the
    transmit register and read the receive register; the GPIO helpers set
    a pin's electrical mode and direction, write its output level and read
    its input level. *)

Definition UARTGetStatus : M Z := rd USART1_STAT.
Definition UARTSendByte (data : Z) : M unit := wr USART1_TXDAT data.
Definition UARTReadByte : M Z := rd USART1_RXDAT.

Definition gpio_config (port pin : Z) (m : PinMode) (w : World) : World :=
  with_gpio (mkGpio (<[(port, pin) := m]> (pin_mode (gpio w)))
                    (pin_dir (gpio w)) (pin_out (gpio w)) (pin_in (gpio w))) w.

Definition gpio_set_dir (port pin : Z) (d : PinDir) (w : World) : World :=
  with_gpio (mkGpio (pin_mode (gpio w)) (<[(port, pin) := d]> (pin_dir (gpio w)))
                    (pin_out (gpio w)) (pin_in (gpio w))) w.

Definition gpio_write (port pin v : Z) (w : World) : World :=
  with_gpio (mkGpio (pin_mode (gpio w)) (pin_dir (gpio w))
                    (<[(port, pin) := v]> (pin_out (gpio w))) (pin_in (gpio w))) w.

Definition gpio_read (port pin : Z) (w : World) : Z :=
  default 0 (pin_in (gpio w) !! (port, pin)).

Definition GPIOPinConfig (port pin : Z) (m : PinMode) : M unit :=
  access (fun w => (tt, gpio_config port pin m w)) (fun _ => PinCfg port pin m).

Definition GPIOSetDir (port pin : Z) (d : PinDir) : M unit :=
  access (fun w => (tt, gpio_set_dir port pin d w)) (fun _ => PinDirSet port pin d).

Definition GPIOPinWrite (port pin v : Z) : M unit :=
  access (fun w => (tt, gpio_write port pin v w)) (fun _ => PinWr port pin v).

Definition GPIOPinRead (port pin : Z) : M Z :=
  access (fun w => (gpio_read port pin w, w)) (PinRd port pin).

(** *** The driver *)

(** [EcuUart::setBit] *)
Definition setBit (bld : Build) (bit : Z) : M unit :=
  if INVERT_OUTPUT bld
  then GPIOPinWrite TxPort TxPin (if bit =? 0 then 1 else 0)
  else GPIOPinWrite TxPort TxPin bit.

(** [EcuUart::getBit] *)
Definition getBit : M Z := GPIOPinRead RxPort RxPin.

(** [EcuUart::configure] *)
Definition configure (bld : Build) : M unit :=
  GPIOPinConfig RxPort RxPin (if INVERT_OUTPUT bld then GPIO_HYSTERESIS else GPIO_PLAIN) ;;
  GPIOPinConfig TxPort TxPin (if OPEN_DRAIN bld then GPIO_OPEN_DRAIN else GPIO_PLAIN) ;;
  GPIOSetDir RxPort RxPin GPIO_INPUT ;;
  GPIOSetDir TxPort TxPin GPIO_OUTPUT ;;
  c <- rd SYSCON_SYSAHBCLKCTRL1 ;;
  wr SYSCON_SYSAHBCLKCTRL1 (Z.lor c (Z.shiftl 1 18)) ;;
  p <- rd SYSCON_PRESETCTRL1 ;;
  wr SYSCON_PRESETCTRL1 (Z.lor p (Z.shiftl 1 18)) ;;
  p <- rd SYSCON_PRESETCTRL1 ;;
  wr SYSCON_PRESETCTRL1 (Z.land p (Z.lnot (Z.shiftl 1 18) mod 2 ^ 32)) ;;
  wr SYSCON_UARTCLKDIV 1 ;;
  setBit bld 1.

(** [EcuUart::send]: the wait loop, then the write. *)
Fixpoint send_wait (fuel : nat) : M unit :=
  match fuel with
  | O => out_of_fuel
  | S fuel' =>
      s <- UARTGetStatus ;;
      if has_bits s UART_STAT_TXRDY then ret tt else send_wait fuel'
  end.

Definition send (fuel : nat) (byte : Z) : M unit :=
  send_wait fuel ;;
  UARTSendByte byte.

(** [EcuUart::ready] *)
Definition ready : M bool :=
  s <- UARTGetStatus ;;
  ret (has_bits s UART_STAT_RXRDY).

(** [EcuUart::get]; the result is a [uint8_t]. *)
Definition get : M Z :=
  v <- UARTReadByte ;;
  ret (v mod 256).

(** [EcuUart::getEcho]: the poll loop answers [true] when it left the
    function through [return false], [false] when [ready()] ended it. *)
Fixpoint getEcho_poll (fuel : nat) : M bool :=
  match fuel with
  | O => out_of_fuel
  | S fuel' =>
      r <- ready ;;
      if r then ret false
      else
        c <- rd SysTick_CTRL ;;
        if has_bits c COUNTFLAG then ret true else getEcho_poll fuel'
  end.

Definition getEcho_arm : M unit :=
  clk <- core_clock ;;
  wr SysTick_LOAD ((EchoTimeout * (clk / 1000)) mod 2 ^ 32) ;;
  wr SysTick_VAL 0 ;;
  wr SysTick_CTRL (Z.lor SysTick_CTRL_CLKSOURCE_Msk SysTick_CTRL_ENABLE_Msk).

Definition getEcho (fuel : nat) (byte : Z) : M bool :=
  getEcho_arm ;;
  timed_out <- getEcho_poll fuel ;;
  if timed_out then ret false
  else
    echo <- get ;;
    ret (echo =? byte).

(** [EcuUart::setBitBang] *)
Definition setBitBang (val : bool) : M unit :=
  if negb val then
    p <- rd SWM_PINASSIGN1 ;;
    wr SWM_PINASSIGN1 (Z.land p 0xFF0000FF) ;;
    p <- rd SWM_PINASSIGN1 ;;
    wr SWM_PINASSIGN1 (Z.lor p PinAssign)
  else
    p <- rd SWM_PINASSIGN1 ;;
    wr SWM_PINASSIGN1 (Z.lor p 0x00FFFF00).

(** [EcuUart::clear] *)
Definition clear : M unit :=
  s <- rd USART1_STAT ;;
  if has_bits s ERR_FLAGS then
    s' <- rd USART1_STAT ;;
    wr USART1_STAT (Z.lor s' ERR_FLAGS) ;;
    UARTReadByte ;;
    ret tt
  else ret tt.

(** ** Reference machines *)

(** The part out of reset: the switch matrix routes nothing (all ones),
    every other register is clear, no pin is configured. *)
Definition boot (schedule : nat -> list HwEvent) : Sys :=
  mkSys (mkWorld 72000000
                 (fun r => match r with SWM_PINASSIGN1 => 0xFFFFFFFF | _ => 0 end)
                 (mkUsart 0 0 []) (mkTimer 0 0 0) (mkGpio ∅ ∅ ∅ ∅) 0%nat schedule)
        [].

(** Nothing ever happens. *)
Definition silence : nat -> list HwEvent := fun _ => [].

(** Exactly one slot is busy. *)
Definition at_slot (t : nat) (evs : list HwEvent) : nat -> list HwEvent :=
  fun k => if Nat.eqb k t then evs else [].

(** A machine whose switch matrix already routes USART1 to the K-line pins. *)
Definition uart_routed : Sys :=
  mkSys (with_mem (<[SWM_PINASSIGN1 := 0xFF0708FF]> (mem (world (boot silence))))
                  (world (boot silence))) [].

(** A byte is waiting in the receiver, and the transmitter drains in slot 1. *)
Definition byte_waiting : Sys :=
  mkSys (with_usart (mkUsart UART_STAT_RXRDY 0x55 [])
                    (world (boot (at_slot 1 [TxReady])))) [].

(** A character comes in with a framing error. *)
Definition framing_error : Sys := boot (at_slot 0 [RxByte 0x54 true false]).

(** The transmitter drains in slot 2. *)
Definition tx_drains_at_2 : Sys := boot (at_slot 2 [TxReady]).

(** The echo and the expiry of the countdown fall into the same slot, the
    status read of the second poll of [getEcho]. *)
Definition echo_ties_with_expiry : Sys :=
  boot (at_slot 5 [SysTickWrap; RxByte 0x55 false false]).

(** The countdown expires in the slot of the second poll's timer read; a
    byte comes in with it, too late to be seen. *)
Definition echo_too_late : Sys :=
  boot (at_slot 6 [SysTickWrap; RxByte 0x55 false false]).

(** Another byte than the one sent comes back. *)
Definition wrong_echo : Sys := boot (at_slot 5 [RxByte 0x54 false false]).

(** ** Vocabulary of the statements *)

Arguments hw_step : simpl never.

(** *** Traces *)

(** A read of the receive data register. *)
Definition is_rx_read (a : Access) : bool :=
  match a with Rd USART1_RXDAT _ => true | _ => false end.

(** Number of reads of the receive data register in a trace. *)
Definition rx_reads (tr : list Access) : nat := length (List.filter is_rx_read tr).

(** An access that changes something: anything but a read. *)
Definition is_write (a : Access) : bool :=
  match a with Rd _ _ | PinRd _ _ _ => false | _ => true end.

(** A register access, to register [r]. *)
Definition on_reg (r : Reg) (a : Access) : bool :=
  match a with
  | Rd r' _ | Wr r' _ => bool_decide (r' = r)
  | _ => false
  end.

(** [k] reads of the status register, one per slot. *)
Fixpoint stat_reads (k : nat) (w : World) : list Access :=
  match k with
  | O => []
  | S k' => Rd USART1_STAT (stat (usart (hw_step w))) :: stat_reads k' (hw_step w)
  end.

(** *** Accesses *)

(** Registers kept in [mem]. *)
Definition plain (r : Reg) : bool :=
  match r with
  | SWM_PINASSIGN1 | SYSCON_SYSAHBCLKCTRL1 | SYSCON_PRESETCTRL1 | SYSCON_UARTCLKDIV => true
  | _ => false
  end.

(** Registers of the countdown timer. *)
Definition timer_reg (r : Reg) : bool :=
  match r with SysTick_LOAD | SysTick_VAL | SysTick_CTRL => true | _ => false end.

(** The machine after a write access. *)
Definition poke (r : Reg) (v : Z) (w : World) : World := reg_write r v (hw_step w).

(** The machine after a read of the timer's control register, which
    clears the count flag. *)
Definition ctrl_read (w : World) : World := snd (reg_read SysTick_CTRL w).

(** The machine after a read access to the receive register. *)
Definition rx_read (w : World) : World := snd (reg_read USART1_RXDAT (hw_step w)).

(** *** The receiver *)

Definition is_rx (ev : HwEvent) : bool :=
  match ev with RxByte _ _ _ => true | _ => false end.

(** No character is received in slot [t]. *)
Definition quiet_rx (w : World) (t : nat) : bool :=
  forallb (fun ev => negb (is_rx ev)) (hw w t).

(** No character is received during the next [k] slots. *)
Definition no_arrival (w : World) (k : nat) : Prop :=
  forall i, (i < k)%nat -> quiet_rx w (now w + i) = true.

(** What a hardware event does to USART1; it depends on USART1 alone. *)
Definition usart_event (ev : HwEvent) (u : Usart) : Usart :=
  match ev with
  | RxByte b fe pe => usart_receive b fe pe u
  | TxReady => mkUsart (Z.lor (stat u) UART_STAT_TXRDY) (rxdat u) (sent u)
  | _ => u
  end.

Definition usart_events (evs : list HwEvent) (u : Usart) : Usart :=
  fold_left (fun u ev => usart_event ev u) evs u.

(** *** [setBitBang] *)

Definition pinassign (s : Sys) : Z := mem (world s) SWM_PINASSIGN1.

Definition UART_ROUTE_MASK : Z := 0x00FFFF00.
Definition OTHER_ROUTES_MASK : Z := 0xFF0000FF.

(** The pin-multiplexing word after a call, as a function of the word before. *)
Definition route (val : bool) (p : Z) : Z :=
  if val then Z.lor p UART_ROUTE_MASK
  else Z.lor (Z.land p OTHER_ROUTES_MASK) PinAssign.

(** The accesses of a call, with the word [p] found in the register. *)
Definition setBitBang_accesses (val : bool) (p : Z) : list Access :=
  if val then [Rd SWM_PINASSIGN1 p; Wr SWM_PINASSIGN1 (Z.lor p 0x00FFFF00)]
  else [Rd SWM_PINASSIGN1 p; Wr SWM_PINASSIGN1 (Z.land p 0xFF0000FF);
        Rd SWM_PINASSIGN1 (Z.land p 0xFF0000FF);
        Wr SWM_PINASSIGN1 (Z.lor (Z.land p 0xFF0000FF) PinAssign)].

(** *** [configure] and [setBit] *)

(** Level the TX pin is driven to (a pin never written reads as low). *)
Definition tx_pin_level (w : World) : Z :=
  default 0 (pin_out (gpio w) !! (TxPort, TxPin)).

(** Modelled from the spec: the level on the K-line itself.  With the
    simple transistor driver ([INVERT_OUTPUT]) the line carries the
    complement of the pin; on the other boards it follows the pin. *)
Definition kline_level (bld : Build) (w : World) : Z :=
  if INVERT_OUTPUT bld
  then (if tx_pin_level w =? 0 then 1 else 0)
  else tx_pin_level w.

(** The level [setBit] puts on the pin for a requested logical level. *)
Definition driven (bld : Build) (bit : Z) : Z :=
  if INVERT_OUTPUT bld then (if bit =? 0 then 1 else 0) else bit.

(** The machine after [configure], up to its last access. *)
Definition configured (bld : Build) (w : World) : World :=
  let w1 := gpio_config RxPort RxPin
              (if INVERT_OUTPUT bld then GPIO_HYSTERESIS else GPIO_PLAIN) (hw_step w) in
  let w2 := gpio_config TxPort TxPin
              (if OPEN_DRAIN bld then GPIO_OPEN_DRAIN else GPIO_PLAIN) (hw_step w1) in
  let w3 := gpio_set_dir RxPort RxPin GPIO_INPUT (hw_step w2) in
  let w4 := gpio_set_dir TxPort TxPin GPIO_OUTPUT (hw_step w3) in
  let w5 := hw_step w4 in
  let w6 := poke SYSCON_SYSAHBCLKCTRL1
              (Z.lor (mem w5 SYSCON_SYSAHBCLKCTRL1) (Z.shiftl 1 18)) w5 in
  let w7 := hw_step w6 in
  let w8 := poke SYSCON_PRESETCTRL1
              (Z.lor (mem w7 SYSCON_PRESETCTRL1) (Z.shiftl 1 18)) w7 in
  let w9 := hw_step w8 in
  let w10 := poke SYSCON_PRESETCTRL1
               (Z.land (mem w9 SYSCON_PRESETCTRL1) (Z.lnot (Z.shiftl 1 18) mod 2 ^ 32)) w9 in
  poke SYSCON_UARTCLKDIV 1 w10.

(** *** [ready] *)

(** [k] calls of [ready] in a row, results in call order. *)
Fixpoint ready_times (k : nat) : M (list bool) :=
  match k with
  | O => ret []
  | S k' =>
      r <- ready ;;
      rs <- ready_times k' ;;
      ret (r :: rs)
  end.

(** *** [clear] *)

(** The machine after [clear] found an error flag: two status reads, the
    write-back, the read of the receive register. *)
Definition scrubbed (w : World) : World :=
  let w2 := hw_step (hw_step w) in
  rx_read (poke USART1_STAT (Z.lor (stat (usart w2)) 0x6000) w2).

(** *** [send] *)

(** [n] is the first poll that finds the transmitter ready. *)
Definition first_tx_ready (w : World) (n : nat) : Prop :=
  (forall i, (i < n)%nat -> tx_ready (elapse (S i) w) = false) /\
  tx_ready (elapse (S n) w) = true.

(** *** [getEcho] *)

(** The reload value of the countdown: [EchoTimeout] milliseconds of core
    clock ticks, in 32-bit arithmetic. *)
Definition echo_ticks (w : World) : Z :=
  (EchoTimeout * (SystemCoreClock w / 1000)) mod 2 ^ 32.

(** The three writes that arm the countdown. *)
Definition arm_accesses (w : World) : list Access :=
  [Wr SysTick_LOAD (echo_ticks w); Wr SysTick_VAL 0;
   Wr SysTick_CTRL (Z.lor SysTick_CTRL_CLKSOURCE_Msk SysTick_CTRL_ENABLE_Msk)].

(** The machine once [getEcho] has armed the countdown, before its first
    poll. *)
Definition armed (s : Sys) : Sys :=
  mkSys (poke SysTick_CTRL (Z.lor SysTick_CTRL_CLKSOURCE_Msk SysTick_CTRL_ENABLE_Msk)
           (poke SysTick_VAL 0 (poke SysTick_LOAD (echo_ticks (world s)) (world s))))
        (trace s ++ arm_accesses (world s)).

(** The first [n] polls of the loop find no byte and no expiry.  Poll [i]
    reads the status register in slot [2 * i] after arming and the timer
    control register in the slot after that; each read sees the machine
    with its own slot's events applied. *)
Definition fruitless (w : World) (n : nat) : Prop :=
  forall i, (i < n)%nat ->
            rx_ready (elapse (2 * i + 1) w) = false /\
            expired (elapse (2 * i + 2) w) = false.

(** *** Further vocabulary *)

(** The accesses of [configure], in order, with the words [c] and [p]
    found in the clock control and reset control registers. *)
Definition configure_accesses (bld : Build) (c p : Z) : list Access :=
  [PinCfg RxPort RxPin (if INVERT_OUTPUT bld then GPIO_HYSTERESIS else GPIO_PLAIN);
   PinCfg TxPort TxPin (if OPEN_DRAIN bld then GPIO_OPEN_DRAIN else GPIO_PLAIN);
   PinDirSet RxPort RxPin GPIO_INPUT;
   PinDirSet TxPort TxPin GPIO_OUTPUT;
   Rd SYSCON_SYSAHBCLKCTRL1 c;
   Wr SYSCON_SYSAHBCLKCTRL1 (Z.lor c (Z.shiftl 1 18));
   Rd SYSCON_PRESETCTRL1 p;
   Wr SYSCON_PRESETCTRL1 (Z.lor p (Z.shiftl 1 18));
   Rd SYSCON_PRESETCTRL1 (Z.lor p (Z.shiftl 1 18));
   Wr SYSCON_PRESETCTRL1
      (Z.land (Z.lor p (Z.shiftl 1 18)) (Z.lnot (Z.shiftl 1 18) mod 2 ^ 32));
   Wr SYSCON_UARTCLKDIV 1;
   PinWr TxPort TxPin (if INVERT_OUTPUT bld then 0 else 1)].

(** The mask [configure] writes back to release the reset:
    [~(1 << 18)] as a 32-bit word. *)
Definition RESET_RELEASE : Z := Z.lnot (Z.shiftl 1 18) mod 2 ^ 32.

(** What the hardware never changes on its own: the plain registers and
    the mode, direction and driven level of every pin. *)
Definition regs_and_pins (w : World)
  : (Reg -> Z) * gmap Pin PinMode * gmap Pin PinDir * gmap Pin Z :=
  (mem w, pin_mode (gpio w), pin_dir (gpio w), pin_out (gpio w)).

(** The countdown as [getEcho] sets it up: reload value and enable bit. *)
Definition timer_setup (w : World) : Z * bool :=
  (load (systick w), has_bits (ctrl (systick w)) SysTick_CTRL_ENABLE_Msk).

(** What polling for the echo must not disturb: the countdown's setup, the
    plain registers and pins, and what has been transmitted. *)
Definition kept_while_polling (w : World) :=
  (timer_setup w, regs_and_pins w, sent (usart w)).

(** Two calls of [get] in a row. *)
Definition get_twice : M (Z * Z) :=
  a <- get ;;
  b <- get ;;
  ret (a, b).

(** [k] calls of [getBit] in a row, results in call order. *)
Fixpoint getBit_times (k : nat) : M (list Z) :=
  match k with
  | O => ret []
  | S k' =>
      v <- getBit ;;
      vs <- getBit_times k' ;;
      ret (v :: vs)
  end.

(** The hardware does not move the RX pin in slot [t]. *)
Definition rx_pin_still (w : World) (t : nat) : bool :=
  forallb (fun ev => match ev with
                     | PinLevel port pin _ => negb ((port =? RxPort) && (pin =? RxPin))
                     | _ => true
                     end) (hw w t).

(** The hardware does not move the RX pin during the next [k] slots. *)
Definition rx_pin_steady (w : World) (k : nat) : Prop :=
  forall i, (i < k)%nat -> rx_pin_still w (now w + i) = true.

(** The RX pin goes high in slot 1; another pin moves in slot 2. *)
Definition rx_pin_rises : Sys :=
  mkSys (elapse 2 (world (boot (fun k => match k with
                                         | 1%nat => [PinLevel 0 7 1]
                                         | 3%nat => [PinLevel 0 9 1]
                                         | _ => []
                                         end)))) [].

(** A framing error and an overrun are both pending. *)
Definition error_and_overrun : Sys :=
  boot (at_slot 0 [RxByte 0x54 true false; RxByte 0x55 false false]).

(** The transmitter is ready at once and again in slot 3. *)
Definition tx_drains_twice : Sys :=
  boot (fun k => match k with 0%nat | 3%nat => [TxReady] | _ => [] end).

(** An unread byte is waiting when the echo of the next one comes in. *)
Definition stale_byte : Sys :=
  mkSys (with_usart (mkUsart UART_STAT_RXRDY 0x11 [])
                    (world (boot (at_slot 4 [RxByte 0x55 false false])))) [].

(** * Properties *)

(** ** The monad *)

Lemma bind_run {A B} (m : M A) (k : A -> M B) s a s' :
  m s = Some (a, s') -> bind m k s = k a s'.
Proof. intros E. unfold bind. now rewrite E. Qed.

Lemma bind_inv {A B} (m : M A) (k : A -> M B) s b s2 :
  bind m k s = Some (b, s2) ->
  exists a s1, m s = Some (a, s1) /\ k a s1 = Some (b, s2).
Proof.
  unfold bind. destruct (m s) as [[a s1]|] eqn:E; [|discriminate].
  intros H. now exists a, s1.
Qed.

(** ** What the hardware leaves alone

    A projection of the machine is static when no hardware event and no
    tick of the clock changes it. *)

Section Static.
Context {A : Type} (f : World -> A).
Hypothesis f_event : forall ev w, f (hw_event ev w) = f w.
Hypothesis f_now : forall n w, f (with_now n w) = f w.

Lemma static_events evs w : f (hw_events evs w) = f w.
Proof.
  unfold hw_events. revert w.
  induction evs as [|ev evs IH]; intros w; simpl; [reflexivity|].
  now rewrite IH, f_event.
Qed.

Lemma static_step w : f (hw_step w) = f w.
Proof. unfold hw_step. now rewrite f_now, static_events. Qed.

Lemma static_elapse k w : f (elapse k w) = f w.
Proof.
  revert w. induction k as [|k IH]; intros w; simpl; [reflexivity|].
  now rewrite IH, static_step.
Qed.
End Static.

Ltac static_event :=
  let ev := fresh "ev" in
  intros ev ?; destruct ev; simpl; try reflexivity;
  repeat match goal with
         | |- context [if ?c then _ else _] => destruct c; simpl
         end; reflexivity.

Lemma mem_step w : mem (hw_step w) = mem w.
Proof. apply static_step; [static_event | reflexivity]. Qed.

Lemma hw_sched_step w : hw (hw_step w) = hw w.
Proof. apply static_step; [static_event | reflexivity]. Qed.

Lemma pin_mode_step w : pin_mode (gpio (hw_step w)) = pin_mode (gpio w).
Proof. apply (static_step (fun w => pin_mode (gpio w))); [static_event | reflexivity]. Qed.

Lemma pin_dir_step w : pin_dir (gpio (hw_step w)) = pin_dir (gpio w).
Proof. apply (static_step (fun w => pin_dir (gpio w))); [static_event | reflexivity]. Qed.

Lemma pin_out_step w : pin_out (gpio (hw_step w)) = pin_out (gpio w).
Proof. apply (static_step (fun w => pin_out (gpio w))); [static_event | reflexivity]. Qed.

Lemma sent_step w : sent (usart (hw_step w)) = sent (usart w).
Proof.
  apply (static_step (fun w => sent (usart w))); [|reflexivity].
  intros ev ?; destruct ev; simpl; try reflexivity.
  - unfold usart_receive. now destruct (has_bits _ _).
  - now destruct (has_bits _ _).
Qed.

Lemma now_step w : now (hw_step w) = S (now w).
Proof. unfold hw_step. reflexivity. Qed.

(** ** Accesses, one at a time *)

Lemma wr_run r v s :
  wr r v s = Some (tt, mkSys (poke r v (world s)) (trace s ++ [Wr r v])).
Proof. reflexivity. Qed.

Lemma rd_plain_run r s :
  plain r = true ->
  rd r s = Some (mem (world s) r,
                 mkSys (hw_step (world s)) (trace s ++ [Rd r (mem (world s) r)])).
Proof.
  intros P. unfold rd, access.
  destruct r; try discriminate P; cbv beta iota delta [reg_read];
    now rewrite mem_step.
Qed.

Lemma rd_stat_run s :
  rd USART1_STAT s =
  Some (stat (usart (hw_step (world s))),
        mkSys (hw_step (world s))
              (trace s ++ [Rd USART1_STAT (stat (usart (hw_step (world s))))])).
Proof. reflexivity. Qed.

Lemma mem_poke_same r v w : plain r = true -> mem (poke r v w) r = v.
Proof.
  intros P. unfold poke.
  destruct r; try discriminate P; cbn [reg_write with_mem mem];
    apply fn_lookup_insert.
Qed.

Lemma mem_poke_other r r' v w : r' <> r -> mem (poke r v w) r' = mem w r'.
Proof.
  intros N. unfold poke.
  destruct r; cbn [reg_write with_mem with_usart with_systick mem];
    rewrite ?fn_lookup_insert_ne by congruence; now rewrite mem_step.
Qed.

Lemma pin_mode_poke r v w : pin_mode (gpio (poke r v w)) = pin_mode (gpio w).
Proof.
  unfold poke.
  destruct r; cbn [reg_write with_mem with_usart with_systick gpio];
    apply pin_mode_step.
Qed.

Lemma pin_dir_poke r v w : pin_dir (gpio (poke r v w)) = pin_dir (gpio w).
Proof.
  unfold poke.
  destruct r; cbn [reg_write with_mem with_usart with_systick gpio];
    apply pin_dir_step.
Qed.

Lemma pin_out_poke r v w : pin_out (gpio (poke r v w)) = pin_out (gpio w).
Proof.
  unfold poke.
  destruct r; cbn [reg_write with_mem with_usart with_systick gpio];
    apply pin_out_step.
Qed.

Create Rewrite HintDb frame.
#[global] Hint Rewrite mem_step pin_mode_step pin_dir_step pin_out_step sent_step
  pin_mode_poke pin_dir_poke pin_out_poke : frame.

(** ** [setBitBang] *)

Lemma setBitBang_run val s :
  exists s',
    setBitBang val s = Some (tt, s') /\
    pinassign s' = route val (pinassign s) /\
    trace s' = trace s ++ setBitBang_accesses val (pinassign s) /\
    (forall r, r <> SWM_PINASSIGN1 -> mem (world s') r = mem (world s) r) /\
    pin_mode (gpio (world s')) = pin_mode (gpio (world s)) /\
    pin_dir (gpio (world s')) = pin_dir (gpio (world s)) /\
    pin_out (gpio (world s')) = pin_out (gpio (world s)).
Proof.
  unfold setBitBang, pinassign, route, setBitBang_accesses.
  destruct val; cbn [negb].
  - rewrite (bind_run _ _ _ _ _ (rd_plain_run SWM_PINASSIGN1 s eq_refl)).
    rewrite wr_run. eexists; split; [reflexivity|]. cbn [world trace].
    split; [now rewrite mem_poke_same|].
    split; [now rewrite <- app_assoc|].
    split; [intros r N; now rewrite mem_poke_other, mem_step|].
    now autorewrite with frame.
  - rewrite (bind_run _ _ _ _ _ (rd_plain_run SWM_PINASSIGN1 s eq_refl)).
    erewrite bind_run by apply wr_run.
    erewrite bind_run by (apply rd_plain_run; reflexivity).
    rewrite wr_run. eexists; split; [reflexivity|]. cbn [world trace].
    rewrite !mem_poke_same by reflexivity.
    split; [reflexivity|].
    split; [now rewrite <- !app_assoc|].
    split.
    + intros r N. now rewrite mem_poke_other, mem_step, mem_poke_other, mem_step.
    + now autorewrite with frame.
Qed.

Lemma route_idem val p : route val (route val p) = route val p.
Proof.
  unfold route. destruct val.
  - now rewrite <- Z.lor_assoc, Z.lor_diag.
  - rewrite Z.land_lor_distr_l, <- Z.land_assoc.
    change (Z.land OTHER_ROUTES_MASK OTHER_ROUTES_MASK) with OTHER_ROUTES_MASK.
    change (Z.land PinAssign OTHER_ROUTES_MASK) with 0.
    now rewrite Z.lor_0_r.
Qed.

Lemma route_on_off p : route false (route true p) = route false p.
Proof.
  unfold route. rewrite Z.land_lor_distr_l.
  change (Z.land UART_ROUTE_MASK OTHER_ROUTES_MASK) with 0.
  now rewrite Z.lor_0_r.
Qed.

Lemma route_uart_fixed p :
  0 <= p < 2 ^ 32 -> (route false p = p <-> Z.land p UART_ROUTE_MASK = PinAssign).
Proof.
  intros R. unfold route. split; intros E.
  - rewrite <- E at 1. rewrite Z.land_lor_distr_l, <- Z.land_assoc.
    change (Z.land OTHER_ROUTES_MASK UART_ROUTE_MASK) with 0.
    change (Z.land PinAssign UART_ROUTE_MASK) with PinAssign.
    now rewrite Z.land_0_r, Z.lor_0_l.
  - rewrite <- E, <- Z.land_lor_distr_r.
    change (Z.lor OTHER_ROUTES_MASK UART_ROUTE_MASK) with (Z.ones 32).
    rewrite Z.land_ones by lia. now apply Z.mod_small.
Qed.

(** C3, as the code has it.  Switching bit-bang mode on and then off
    leaves the 32-bit pin-multiplexing word with its bits 8..23 set to
    [PinAssign] and its other bits as they were; so the word is back at
    its value before the first call exactly when that value already
    carried the UART routing in bits 8..23. *)
Theorem setBitBang_on_off_restores_uart_route (s : Sys) :
  0 <= pinassign s < 2 ^ 32 ->
  exists s',
    (setBitBang true ;; setBitBang false) s = Some (tt, s') /\
    pinassign s' = Z.lor (Z.land (pinassign s) 0xFF0000FF) PinAssign /\
    (pinassign s' = pinassign s <-> Z.land (pinassign s) 0x00FFFF00 = PinAssign).
Proof.
  intros R.
  destruct (setBitBang_run true s) as (s1 & E1 & P1 & _).
  destruct (setBitBang_run false s1) as (s2 & E2 & P2 & _).
  exists s2. split; [now rewrite (bind_run _ _ _ _ _ E1)|].
  rewrite P2, P1, route_on_off.
  split; [reflexivity|]. now apply route_uart_fixed.
Qed.

Lemma setBitBang_on_off_restores_uart_route_witness :
  0 <= pinassign uart_routed < 2 ^ 32 /\
  exists s',
    (setBitBang true ;; setBitBang false) uart_routed = Some (tt, s') /\
    pinassign s' = pinassign uart_routed.
Proof.
  assert (R : 0 <= pinassign uart_routed < 2 ^ 32).
  { vm_compute. split; [discriminate | reflexivity]. }
  split; [exact R|].
  destruct (setBitBang_on_off_restores_uart_route uart_routed R) as (s' & E & _ & I).
  exists s'. split; [exact E|]. apply I. reflexivity.
Defined.

(** C3, as the spec words it, fails out of reset: the word is all ones,
    and after on-then-off it is [0xFF0708FF]. *)
Lemma setBitBang_on_off_from_reset :
  exists s',
    (setBitBang true ;; setBitBang false) (boot silence) = Some (tt, s') /\
    pinassign (boot silence) = 0xFFFFFFFF /\
    pinassign s' = 0xFF0708FF /\
    pinassign s' <> pinassign (boot silence).
Proof.
  destruct (setBitBang_run true (boot silence)) as (s1 & E1 & P1 & _).
  destruct (setBitBang_run false s1) as (s2 & E2 & P2 & _).
  exists s2. split; [now rewrite (bind_run _ _ _ _ _ E1)|].
  rewrite P2, P1. vm_compute. repeat split; discriminate.
Qed.

(** C6.  For either value of the flag, a second call of [setBitBang] with
    the same flag leaves the pin-multiplexing word as the first call left
    it. *)
Theorem setBitBang_idempotent (val : bool) (s : Sys) :
  exists s1 s2,
    setBitBang val s = Some (tt, s1) /\
    (setBitBang val ;; setBitBang val) s = Some (tt, s2) /\
    pinassign s2 = pinassign s1.
Proof.
  destruct (setBitBang_run val s) as (s1 & E1 & P1 & _).
  destruct (setBitBang_run val s1) as (s2 & E2 & P2 & _).
  exists s1, s2. split; [exact E1|].
  split; [now rewrite (bind_run _ _ _ _ _ E1)|].
  now rewrite P2, P1, route_idem.
Qed.

Lemma setBitBang_accesses_on_reg val p :
  Forall (fun a => on_reg SWM_PINASSIGN1 a = true) (setBitBang_accesses val p).
Proof. destruct val; repeat constructor. Qed.

(** C8.  For either value of the flag, every bus access of [setBitBang]
    is to the pin-multiplexing register, and the call leaves the clock
    control, reset control and clock divider registers and every pin's
    mode, direction and output level as they were. *)
Theorem setBitBang_touches_only_pinassign (val : bool) (s : Sys) :
  exists s' accesses,
    setBitBang val s = Some (tt, s') /\
    trace s' = trace s ++ accesses /\
    Forall (fun a => on_reg SWM_PINASSIGN1 a = true) accesses /\
    mem (world s') SYSCON_SYSAHBCLKCTRL1 = mem (world s) SYSCON_SYSAHBCLKCTRL1 /\
    mem (world s') SYSCON_PRESETCTRL1 = mem (world s) SYSCON_PRESETCTRL1 /\
    mem (world s') SYSCON_UARTCLKDIV = mem (world s) SYSCON_UARTCLKDIV /\
    pin_dir (gpio (world s')) = pin_dir (gpio (world s)) /\
    pin_mode (gpio (world s')) = pin_mode (gpio (world s)) /\
    pin_out (gpio (world s')) = pin_out (gpio (world s)).
Proof.
  destruct (setBitBang_run val s) as (s' & E & _ & T & F & Hm & Hd & Ho).
  exists s', (setBitBang_accesses val (pinassign s)).
  split; [exact E|]. split; [exact T|].
  split; [apply setBitBang_accesses_on_reg|].
  repeat split; try (apply F; discriminate); assumption.
Qed.

(** ** [configure] and [setBit] *)

Lemma bind_access {A B} (f : World -> A * World) (ev : A -> Access) (k : A -> M B) s :
  bind (access f ev) k s =
  k (fst (f (hw_step (world s))))
    (mkSys (snd (f (hw_step (world s))))
           (trace s ++ [ev (fst (f (hw_step (world s))))])).
Proof. unfold bind, access. now destruct (f (hw_step (world s))). Qed.

Lemma setBit_run bld bit s :
  setBit bld bit s =
  Some (tt, mkSys (gpio_write TxPort TxPin (driven bld bit) (hw_step (world s)))
                  (trace s ++ [PinWr TxPort TxPin (driven bld bit)])).
Proof. unfold setBit, driven. now destruct (INVERT_OUTPUT bld). Qed.

Lemma tx_pin_level_write v w : tx_pin_level (gpio_write TxPort TxPin v w) = v.
Proof.
  unfold tx_pin_level, gpio_write. cbn [gpio with_gpio pin_out].
  now rewrite lookup_insert_eq.
Qed.

Lemma kline_level_driven bld bit w :
  0 <= bit <= 1 ->
  kline_level bld (gpio_write TxPort TxPin (driven bld bit) w) = bit.
Proof.
  intros R. unfold kline_level. rewrite tx_pin_level_write. unfold driven.
  destruct (INVERT_OUTPUT bld); [|reflexivity].
  assert (bit = 0 \/ bit = 1) as [-> | ->] by lia; reflexivity.
Qed.

Lemma configure_run bld s :
  exists tr,
    configure bld s =
    Some (tt, mkSys (gpio_write TxPort TxPin (driven bld 1)
                                (hw_step (configured bld (world s))))
                    (trace s ++ tr ++ [PinWr TxPort TxPin (driven bld 1)])).
Proof.
  unfold configure, GPIOPinConfig, GPIOSetDir, rd, wr.
  rewrite !bind_access. cbn [fst snd world trace reg_read].
  rewrite setBit_run. cbn [world trace]. rewrite <- !app_assoc.
  eexists [_; _; _; _; _; _; _; _; _; _; _].
  unfold configured, poke. cbn zeta. reflexivity.
Qed.

Lemma pin_dir_write port pin v w :
  pin_dir (gpio (gpio_write port pin v w)) = pin_dir (gpio w).
Proof. reflexivity. Qed.

Lemma pin_dir_configured bld w :
  pin_dir (gpio (configured bld w)) !! (TxPort, TxPin) = Some GPIO_OUTPUT.
Proof.
  unfold configured. cbn zeta. autorewrite with frame.
  unfold gpio_set_dir. cbn [gpio with_gpio pin_dir].
  now rewrite lookup_insert_eq.
Qed.

(** C5.  In both build variants [configure] returns, and it returns with
    the TX pin an output whose level is the one [setBit] derives from
    logical 1: low when the output is inverted, high otherwise; the K-line
    behind the driver is high either way.  The pin write is the last
    access of [configure]. *)
Theorem configure_idles_tx_high (bld : Build) (s : Sys) :
  exists s' tr,
    configure bld s = Some (tt, s') /\
    trace s' = trace s ++ tr ++ [PinWr TxPort TxPin (if INVERT_OUTPUT bld then 0 else 1)] /\
    pin_dir (gpio (world s')) !! (TxPort, TxPin) = Some GPIO_OUTPUT /\
    tx_pin_level (world s') = (if INVERT_OUTPUT bld then 0 else 1) /\
    kline_level bld (world s') = 1.
Proof.
  destruct (configure_run bld s) as (tr & E).
  eexists; exists tr. split; [exact E|]. cbn [world trace].
  split; [unfold driven; now destruct (INVERT_OUTPUT bld)|].
  split; [rewrite pin_dir_write, pin_dir_step; apply pin_dir_configured|].
  split; [rewrite tx_pin_level_write; unfold driven; now destruct (INVERT_OUTPUT bld)|].
  apply kline_level_driven. lia.
Qed.

(** ** The receiver, seen on its own

    What a hardware event does to USART1 depends on USART1 alone. *)

Lemma usart_hw_event ev w : usart (hw_event ev w) = usart_event ev (usart w).
Proof.
  destruct ev; simpl; try reflexivity. now destruct (has_bits _ _).
Qed.

Lemma usart_hw_events evs w :
  usart (hw_events evs w) = usart_events evs (usart w).
Proof.
  unfold hw_events, usart_events. revert w.
  induction evs as [|ev evs IH]; intros w; simpl; [reflexivity|].
  now rewrite IH, usart_hw_event.
Qed.

Lemma usart_step w :
  usart (hw_step w) = usart_events (hw w (now w)) (usart w).
Proof. unfold hw_step. cbn [usart with_now]. apply usart_hw_events. Qed.

Lemma has_bits_false v m : has_bits v m = false <-> Z.land v m = 0.
Proof.
  unfold has_bits. rewrite negb_false_iff. apply Z.eqb_eq.
Qed.

Lemma has_bits_land v v' m :
  Z.land v m = Z.land v' m -> has_bits v m = has_bits v' m.
Proof. unfold has_bits. now intros ->. Qed.

(** Events other than a reception leave every status bit but TXRDY alone,
    and the holding register too. *)
Lemma quiet_events_stat m evs u :
  Z.land UART_STAT_TXRDY m = 0 ->
  forallb (fun ev => negb (is_rx ev)) evs = true ->
  Z.land (stat (usart_events evs u)) m = Z.land (stat u) m /\
  rxdat (usart_events evs u) = rxdat u.
Proof.
  intros Hm. unfold usart_events. revert u.
  induction evs as [|ev evs IH]; intros u Q; simpl in *; [now split|].
  apply andb_true_iff in Q as [Q1 Q2].
  destruct (IH (usart_event ev u) Q2) as [E1 E2]. rewrite E1, E2.
  destruct ev; simpl in *; try discriminate; try (now split).
  split; [|reflexivity].
  now rewrite Z.land_lor_distr_l, Hm, Z.lor_0_r.
Qed.

Lemma quiet_step_stat m w :
  Z.land UART_STAT_TXRDY m = 0 ->
  quiet_rx w (now w) = true ->
  Z.land (stat (usart (hw_step w))) m = Z.land (stat (usart w)) m /\
  rxdat (usart (hw_step w)) = rxdat (usart w).
Proof.
  intros Hm Q. rewrite usart_step. now apply quiet_events_stat.
Qed.

Lemma rx_ready_quiet_step w :
  quiet_rx w (now w) = true -> rx_ready (hw_step w) = rx_ready w.
Proof.
  intros Q. unfold rx_ready. apply has_bits_land.
  now apply quiet_step_stat.
Qed.

Lemma no_arrival_step w k :
  no_arrival w (S k) ->
  quiet_rx w (now w) = true /\ no_arrival (hw_step w) k.
Proof.
  intros H. split.
  - specialize (H 0%nat). rewrite Nat.add_0_r in H. apply H. lia.
  - intros i Hi. unfold quiet_rx. rewrite hw_sched_step, now_step.
    replace (S (now w) + i)%nat with (now w + S i)%nat by lia.
    apply H. lia.
Qed.

(** ** [ready] *)

Lemma ready_run s :
  ready s =
  Some (rx_ready (hw_step (world s)),
        mkSys (hw_step (world s))
              (trace s ++ [Rd USART1_STAT (stat (usart (hw_step (world s))))])).
Proof. reflexivity. Qed.

Lemma ready_times_run k : forall s,
  no_arrival (world s) k ->
  ready_times k s =
  Some (repeat (rx_ready (world s)) k,
        mkSys (elapse k (world s)) (trace s ++ stat_reads k (world s))).
Proof.
  induction k as [|k IH]; intros s Q.
  - cbn. rewrite app_nil_r. now destruct s.
  - apply no_arrival_step in Q as [Q0 Q].
    cbn [ready_times]. rewrite (bind_run _ _ _ _ _ (ready_run s)).
    erewrite bind_run by (apply IH; exact Q).
    cbn [world trace ret repeat elapse stat_reads].
    now rewrite rx_ready_quiet_step, <- app_assoc.
Qed.

(** C9.  A call of [ready] makes one access, a read of the status
    register, and leaves the machine as one idle bus slot would have left
    it; and while no character arrives, any number of calls in a row all
    return the value the receive-ready bit had at the start. *)
Theorem ready_only_observes (k : nat) (s : Sys) :
  no_arrival (world s) k ->
  (exists v,
      ready s = Some (has_bits v UART_STAT_RXRDY,
                      mkSys (elapse 1 (world s)) (trace s ++ [Rd USART1_STAT v]))) /\
  ready_times k s =
  Some (repeat (rx_ready (world s)) k,
        mkSys (elapse k (world s)) (trace s ++ stat_reads k (world s))).
Proof.
  intros Q. split.
  - eexists. apply ready_run.
  - now apply ready_times_run.
Qed.

Lemma ready_only_observes_witness :
  no_arrival (world byte_waiting) 3 /\
  ready_times 3 byte_waiting =
  Some ([true; true; true],
        mkSys (elapse 3 (world byte_waiting))
              [Rd USART1_STAT 1; Rd USART1_STAT 5; Rd USART1_STAT 5]).
Proof.
  assert (Q : no_arrival (world byte_waiting) 3).
  { intros i Hi.
    destruct i as [|[|[|i]]]; [reflexivity | reflexivity | reflexivity | lia]. }
  split; [exact Q|].
  exact (proj2 (ready_only_observes 3 byte_waiting Q)).
Defined.

(** ** [clear] *)

Lemma w1c_clears a v e w :
  Z.land e w = e ->
  Z.land (Z.ldiff a (Z.land (Z.lor v e) w)) e = 0.
Proof.
  intros Hew. apply Z.bits_inj'. intros n Hn.
  rewrite Z.land_spec, Z.ldiff_spec, Z.land_spec, Z.lor_spec, Z.bits_0.
  assert (Hb : Z.testbit e n = true -> Z.testbit w n = true).
  { intros He. rewrite <- Hew, Z.land_spec in He.
    now apply andb_true_iff in He. }
  destruct (Z.testbit e n); [|now rewrite andb_false_r].
  rewrite Hb by reflexivity.
  now rewrite orb_true_r, andb_false_r.
Qed.

Lemma land_lor_absorb v e : Z.land (Z.lor v e) e = e.
Proof.
  apply Z.bits_inj'. intros n _. rewrite Z.land_spec, Z.lor_spec.
  destruct (Z.testbit v n), (Z.testbit e n); reflexivity.
Qed.

Lemma ldiff_keeps a b m : Z.land b m = 0 -> Z.land (Z.ldiff a b) m = Z.land a m.
Proof.
  intros H. apply Z.bits_inj'. intros n Hn.
  rewrite !Z.land_spec, Z.ldiff_spec.
  assert (Hb : Z.testbit b n && Z.testbit m n = false).
  { now rewrite <- Z.land_spec, H, Z.bits_0. }
  destruct (Z.testbit m n); [|now rewrite !andb_false_r].
  rewrite andb_true_r in Hb. now rewrite Hb, andb_true_r.
Qed.

Lemma now_poke r v w : now (poke r v w) = S (now w).
Proof. unfold poke. now destruct r. Qed.

Lemma hw_sched_poke r v w : hw (poke r v w) = hw w.
Proof.
  unfold poke.
  destruct r; cbn [reg_write with_mem with_usart with_systick hw];
    apply hw_sched_step.
Qed.

Lemma clear_run s :
  clear s =
  if rx_error (hw_step (world s))
  then Some (tt, mkSys (scrubbed (world s))
                       (trace s ++
                        [Rd USART1_STAT (stat (usart (hw_step (world s))));
                         Rd USART1_STAT (stat (usart (hw_step (hw_step (world s)))));
                         Wr USART1_STAT
                            (Z.lor (stat (usart (hw_step (hw_step (world s))))) 0x6000);
                         Rd USART1_RXDAT
                            (rxdat (usart
                               (hw_step
                                  (poke USART1_STAT
                                     (Z.lor (stat (usart (hw_step (hw_step (world s)))))
                                            0x6000)
                                     (hw_step (hw_step (world s)))))))]))
  else Some (tt, mkSys (hw_step (world s))
                       (trace s ++ [Rd USART1_STAT (stat (usart (hw_step (world s))))])).
Proof.
  unfold clear, UARTReadByte, rd, wr. rewrite bind_access.
  cbn [reg_read fst snd world trace]. unfold rx_error.
  destruct (has_bits (stat (usart (hw_step (world s)))) ERR_FLAGS); [|reflexivity].
  rewrite !bind_access. cbn [fst snd world trace ret].
  now rewrite <- !app_assoc.
Qed.

Lemma scrubbed_flags w :
  quiet_rx w (now w + 3) = true ->
  rx_error (scrubbed w) = false /\ rx_ready (scrubbed w) = false.
Proof.
  intros Q. unfold scrubbed, rx_read, rx_error, rx_ready. cbv zeta.
  set (w2 := hw_step (hw_step w)).
  set (w3 := poke USART1_STAT (Z.lor (stat (usart w2)) 24576) w2).
  assert (Q3 : quiet_rx w3 (now w3) = true).
  { unfold quiet_rx, w3, w2.
    rewrite hw_sched_poke, now_poke, !hw_sched_step, !now_step.
    replace (S (S (S (now w)))) with (now w + 3)%nat by lia. exact Q. }
  cbn [reg_read snd usart with_usart stat]. split.
  - apply has_bits_false.
    rewrite ldiff_keeps by reflexivity.
    destruct (quiet_step_stat ERR_FLAGS w3 eq_refl Q3) as [-> _].
    unfold w3, poke. cbn [reg_write usart with_usart stat].
    now apply w1c_clears.
  - apply has_bits_false. apply Z.land_ldiff.
Qed.

(** C4.  When the status read of [clear] shows neither error flag, that
    read is its only access (no write, no read of the receive register)
    and the machine is left as one idle bus slot would have left it.  When
    it shows either flag, [clear] reads the status again, writes it back
    with both flag bits set, and reads the receive register once; unless a
    new character comes in behind the write, both flags and the
    receive-ready bit then read as clear. *)
Theorem clear_scrubs_error_flags (s : Sys) :
  if rx_error (elapse 1 (world s))
  then exists s' v0 v x,
      clear s = Some (tt, s') /\
      trace s' = trace s ++ [Rd USART1_STAT v0; Rd USART1_STAT v;
                             Wr USART1_STAT (Z.lor v 0x6000); Rd USART1_RXDAT x] /\
      Z.land (Z.lor v 0x6000) 0x6000 = 0x6000 /\
      rx_reads (trace s') = (rx_reads (trace s) + 1)%nat /\
      (quiet_rx (world s) (now (world s) + 3) = true ->
       rx_error (world s') = false /\ rx_ready (world s') = false)
  else clear s =
       Some (tt, mkSys (elapse 1 (world s))
                       (trace s ++ [Rd USART1_STAT (stat (usart (elapse 1 (world s))))])).
Proof.
  rewrite clear_run. cbn [elapse].
  destruct (rx_error (hw_step (world s))); [|reflexivity].
  do 4 eexists. split; [reflexivity|]. cbn [world trace].
  split; [reflexivity|].
  split.
  { apply land_lor_absorb. }
  split.
  { unfold rx_reads. rewrite List.filter_app, length_app. reflexivity. }
  apply scrubbed_flags.
Qed.

Lemma clear_scrubs_error_flags_witness :
  exists s',
    clear framing_error = Some (tt, s') /\
    rx_reads (trace s') = 1%nat /\
    rx_error (world s') = false /\ rx_ready (world s') = false.
Proof.
  pose proof (clear_scrubs_error_flags framing_error) as H.
  change (rx_error (elapse 1 (world framing_error))) with true in H.
  cbv iota in H.
  destruct H as (s' & v0 & v & x & E & _ & _ & R & F).
  exists s'. split; [exact E|]. split; [exact R|].
  apply F. reflexivity.
Defined.

(** ** [send] *)

Lemma send_wait_ready n : forall s fuel,
  (forall i, (i < n)%nat -> tx_ready (elapse (S i) (world s)) = false) ->
  tx_ready (elapse (S n) (world s)) = true ->
  (n < fuel)%nat ->
  send_wait fuel s =
  Some (tt, mkSys (elapse (S n) (world s)) (trace s ++ stat_reads (S n) (world s))).
Proof.
  induction n as [|n IH]; intros s fuel Hlo Hn Hf;
    (destruct fuel as [|fuel]; [lia|]);
    cbn [send_wait]; unfold UARTGetStatus;
    rewrite (bind_run _ _ _ _ _ (rd_stat_run s)).
  - cbn [elapse] in Hn. unfold tx_ready in Hn. now rewrite Hn.
  - pose proof (Hlo 0%nat ltac:(lia)) as H0. cbn [elapse] in H0.
    unfold tx_ready in H0. rewrite H0.
    rewrite (IH _ fuel); cbn [world trace].
    + now rewrite <- app_assoc.
    + intros i Hi. apply (Hlo (S i)). lia.
    + exact Hn.
    + lia.
Qed.

Lemma send_wait_inv fuel : forall s s',
  send_wait fuel s = Some (tt, s') ->
  exists n, (n < fuel)%nat /\
            (forall i, (i < n)%nat -> tx_ready (elapse (S i) (world s)) = false) /\
            tx_ready (elapse (S n) (world s)) = true.
Proof.
  induction fuel as [|fuel IH]; intros s s' E; [discriminate|].
  cbn [send_wait] in E. unfold UARTGetStatus in E.
  rewrite (bind_run _ _ _ _ _ (rd_stat_run s)) in E.
  destruct (has_bits (stat (usart (hw_step (world s)))) UART_STAT_TXRDY) eqn:R.
  - exists 0%nat. split; [lia|]. split; [intros i Hi; lia|]. exact R.
  - apply IH in E as (n & Hn & Hlo & Hr). cbn [world] in *.
    exists (S n). split; [lia|]. split; [|exact Hr].
    intros [|i] Hi; [exact R|]. apply Hlo. lia.
Qed.

Lemma send_wait_never fuel : forall s,
  (forall i, tx_ready (elapse (S i) (world s)) = false) ->
  send_wait fuel s = None.
Proof.
  induction fuel as [|fuel IH]; intros s H; [reflexivity|].
  cbn [send_wait]. unfold UARTGetStatus.
  rewrite (bind_run _ _ _ _ _ (rd_stat_run s)).
  pose proof (H 0%nat) as H0. cbn [elapse] in H0. unfold tx_ready in H0.
  rewrite H0. apply IH. intros i. apply (H (S i)).
Qed.

Lemma first_tx_ready_exists w n :
  tx_ready (elapse (S n) w) = true -> exists m, (m <= n)%nat /\ first_tx_ready w m.
Proof.
  induction n as [n IH] using lt_wf_ind. intros Hn.
  destruct (forallb (fun i => negb (tx_ready (elapse (S i) w))) (seq 0 n)) eqn:F.
  - exists n. split; [lia|]. split; [|exact Hn].
    intros i Hi. rewrite forallb_forall in F.
    apply negb_true_iff, F, in_seq. lia.
  - assert (exists i, (i < n)%nat /\ tx_ready (elapse (S i) w) = true) as (i & Hi & Ri).
    { clear IH Hn. induction n as [|n IHn]; [discriminate|].
      rewrite seq_S, forallb_app in F. cbn in F.
      destruct (forallb _ (seq 0 n)) eqn:F'.
      - exists n. split; [lia|]. cbn in F. rewrite andb_true_r in F.
        now apply negb_false_iff in F.
      - destruct (IHn eq_refl) as (i & Hi & Ri). exists i. split; [lia|exact Ri]. }
    destruct (IH i Hi Ri) as (m & Hm & Fm). exists m. split; [lia|exact Fm].
Qed.

(** C7.  If poll [n] is the first to find the transmitter ready, [send]
    with fuel for more than [n] polls returns after [n + 1] reads of the
    status register followed by one write of [byte] to the transmit
    register, its only write, and [byte] is what goes out.  With no
    timeout in the loop, some amount of fuel lets [send] return if and only
    if some poll finds the transmitter ready; if none ever does, [send]
    returns for no amount of fuel. *)
Theorem send_waits_for_txrdy (byte : Z) (s : Sys) :
  (forall n fuel,
      first_tx_ready (world s) n -> (n < fuel)%nat ->
      exists s',
        send fuel byte s = Some (tt, s') /\
        trace s' = trace s ++ stat_reads (S n) (world s) ++ [Wr USART1_TXDAT byte] /\
        Forall (fun a => is_write a = false) (stat_reads (S n) (world s)) /\
        sent (usart (world s')) = sent (usart (world s)) ++ [byte]) /\
  ((exists fuel s', send fuel byte s = Some (tt, s')) <->
   (exists n, tx_ready (elapse (S n) (world s)) = true)) /\
  ((forall n, tx_ready (elapse (S n) (world s)) = false) ->
   forall fuel, send fuel byte s = None).
Proof.
  split; [|split].
  - intros n fuel [Hlo Hn] Hf. unfold send.
    rewrite (bind_run _ _ _ _ _ (send_wait_ready n s fuel Hlo Hn Hf)).
    unfold UARTSendByte. rewrite wr_run. eexists. split; [reflexivity|].
    cbn [world trace]. split; [now rewrite <- app_assoc|]. split.
    + generalize (S n) (world s). intros k. induction k as [|k IHk]; intros w.
      * constructor.
      * cbn [stat_reads]. constructor; [reflexivity|apply IHk].
    + unfold poke. cbn [reg_write usart with_usart sent].
      rewrite sent_step. f_equal.
      apply (static_elapse (fun w => sent (usart w))); [|reflexivity].
      intros ev w. rewrite usart_hw_event. destruct ev; cbn; try reflexivity.
      unfold usart_receive. now destruct (has_bits _ _).
  - split.
    + intros (fuel & s' & E). unfold send in E.
      apply bind_inv in E as ([] & s1 & E1 & _).
      apply send_wait_inv in E1 as (n & _ & _ & Hn). now exists n.
    + intros (n & Hn).
      destruct (first_tx_ready_exists _ _ Hn) as (m & _ & Hlo & Hm).
      exists (S m). unfold send.
      rewrite (bind_run _ _ _ _ _ (send_wait_ready m s (S m) Hlo Hm ltac:(lia))).
      unfold UARTSendByte. rewrite wr_run. eexists. reflexivity.
  - intros H fuel. unfold send, bind. now rewrite send_wait_never.
Qed.

Lemma send_waits_for_txrdy_witness :
  first_tx_ready (world tx_drains_at_2) 2 /\
  exists s',
    send 3 0x33 tx_drains_at_2 = Some (tt, s') /\
    trace s' = [Rd USART1_STAT 0; Rd USART1_STAT 0; Rd USART1_STAT 4;
                Wr USART1_TXDAT 0x33] /\
    sent (usart (world s')) = [0x33].
Proof.
  assert (F : first_tx_ready (world tx_drains_at_2) 2).
  { split; [|reflexivity].
    intros i Hi. destruct i as [|[|i]]; [reflexivity | reflexivity | lia]. }
  split; [exact F|].
  destruct (proj1 (send_waits_for_txrdy 0x33 tx_drains_at_2) 2%nat 3%nat F)
    as (s' & E & T & _ & S); [lia|].
  exists s'. split; [exact E|]. split; [exact T|exact S].
Defined.

(** ** [getEcho] *)

Lemma getEcho_arm_run s : getEcho_arm s = Some (tt, armed s).
Proof.
  unfold getEcho_arm, armed, arm_accesses, echo_ticks, core_clock, bind.
  rewrite !wr_run. cbn [world trace]. now rewrite <- !app_assoc.
Qed.

Lemma load_step w : load (systick (hw_step w)) = load (systick w).
Proof. apply (static_step (fun w => load (systick w))); [static_event | reflexivity]. Qed.

(** Armed, the countdown is enabled with [EchoTimeout] milliseconds of
    ticks as its reload value (the register keeps 24 bits). *)
Lemma armed_countdown s :
  load (systick (world (armed s))) = Z.land (echo_ticks (world s)) 0xFFFFFF /\
  has_bits (ctrl (systick (world (armed s)))) SysTick_CTRL_ENABLE_Msk = true.
Proof.
  unfold armed, poke. cbn [world reg_write systick with_systick load ctrl].
  split.
  - now rewrite !load_step.
  - unfold has_bits. apply negb_true_iff, Z.eqb_neq. intros H.
    apply (f_equal (fun z => Z.testbit z 0)) in H.
    rewrite Z.land_spec, Z.lor_spec in H. discriminate H.
Qed.


Lemma ldiff_absent c m : Z.land c m = 0 -> Z.ldiff c m = c.
Proof.
  intros H. apply Z.bits_inj'. intros n Hn. rewrite Z.ldiff_spec.
  assert (Hb : Z.testbit c n && Z.testbit m n = false).
  { now rewrite <- Z.land_spec, H, Z.bits_0. }
  destruct (Z.testbit c n), (Z.testbit m n); try reflexivity; discriminate.
Qed.

Lemma ctrl_read_unexpired w : expired w = false -> ctrl_read w = w.
Proof.
  unfold expired, ctrl_read. intros H. apply has_bits_false in H.
  cbn [reg_read snd]. rewrite (ldiff_absent _ _ H).
  now destruct w as [? ? ? []].
Qed.

Lemma rd_ctrl_run s :
  rd SysTick_CTRL s =
  Some (ctrl (systick (hw_step (world s))),
        mkSys (ctrl_read (hw_step (world s)))
              (trace s ++ [Rd SysTick_CTRL (ctrl (systick (hw_step (world s))))])).
Proof. reflexivity. Qed.

Ltac count_rx_reads :=
  cbn [rx_reads List.filter is_rx_read length Nat.add];
  rewrite ?Nat.add_0_r; reflexivity.

Lemma rx_reads_app tr tr' : rx_reads (tr ++ tr') = (rx_reads tr + rx_reads tr')%nat.
Proof. unfold rx_reads. now rewrite List.filter_app, length_app. Qed.

Lemma fruitless_step w n :
  fruitless w (S n) ->
  rx_ready (hw_step w) = false /\ expired (hw_step (hw_step w)) = false /\
  fruitless (hw_step (hw_step w)) n.
Proof.
  intros F. destruct (F 0%nat ltac:(lia)) as [R X]. cbn [elapse Nat.mul Nat.add] in R, X.
  split; [exact R|]. split; [exact X|].
  intros i Hi. destruct (F (S i) ltac:(lia)) as [Ri Xi].
  replace (2 * S i + 1)%nat with (S (S (2 * i + 1))) in Ri by lia.
  replace (2 * S i + 2)%nat with (S (S (2 * i + 2))) in Xi by lia.
  now split.
Qed.

(** One turn of the loop that finds neither a byte nor an expiry. *)
Lemma getEcho_poll_turn fuel s :
  rx_ready (hw_step (world s)) = false ->
  expired (hw_step (hw_step (world s))) = false ->
  getEcho_poll (S fuel) s =
  getEcho_poll fuel
    (mkSys (hw_step (hw_step (world s)))
           (trace s ++ [Rd USART1_STAT (stat (usart (hw_step (world s))));
                        Rd SysTick_CTRL (ctrl (systick (hw_step (hw_step (world s)))))])).
Proof.
  intros R X. cbn [getEcho_poll].
  rewrite (bind_run _ _ _ _ _ (ready_run s)), R.
  rewrite (bind_run _ _ _ _ _ (rd_ctrl_run _)). cbn [world trace].
  unfold expired in X. rewrite X. fold (expired (hw_step (hw_step (world s)))) in X.
  now rewrite (ctrl_read_unexpired _ X), <- app_assoc.
Qed.

Lemma getEcho_poll_ready n : forall s fuel,
  fruitless (world s) n ->
  rx_ready (elapse (2 * n + 1) (world s)) = true ->
  (n < fuel)%nat ->
  exists tr,
    getEcho_poll fuel s =
    Some (false, mkSys (elapse (2 * n + 1) (world s)) (trace s ++ tr)) /\
    rx_reads tr = 0%nat /\ Forall (fun a => is_write a = false) tr.
Proof.
  induction n as [|n IH]; intros s fuel F R Hf; (destruct fuel as [|fuel]; [lia|]).
  - cbn [elapse Nat.mul Nat.add] in R. cbn [getEcho_poll].
    rewrite (bind_run _ _ _ _ _ (ready_run s)), R.
    eexists. split; [reflexivity|]. split; [reflexivity|]. now repeat constructor.
  - apply fruitless_step in F as (R0 & X0 & F).
    replace (2 * S n + 1)%nat with (S (S (2 * n + 1))) in * by lia.
    cbn [elapse] in R |- *.
    rewrite (getEcho_poll_turn _ _ R0 X0).
    match goal with
    | |- context [getEcho_poll fuel ?s1] =>
        destruct (IH s1 fuel) as (tr & E & C & W); [exact F | exact R | lia |]
    end.
    rewrite E. cbn [world trace]. eexists. rewrite <- app_assoc.
    split; [reflexivity|]. split.
    + rewrite rx_reads_app, C. reflexivity.
    + apply Forall_app. split; [now repeat constructor | exact W].
Qed.

Lemma getEcho_poll_expired n : forall s fuel,
  fruitless (world s) n ->
  rx_ready (elapse (2 * n + 1) (world s)) = false ->
  expired (elapse (2 * n + 2) (world s)) = true ->
  (n < fuel)%nat ->
  exists tr,
    getEcho_poll fuel s =
    Some (true, mkSys (ctrl_read (elapse (2 * n + 2) (world s))) (trace s ++ tr)) /\
    rx_reads tr = 0%nat /\ Forall (fun a => is_write a = false) tr.
Proof.
  induction n as [|n IH]; intros s fuel F R X Hf; (destruct fuel as [|fuel]; [lia|]).
  - cbn [elapse Nat.mul Nat.add] in R, X. cbn [getEcho_poll].
    rewrite (bind_run _ _ _ _ _ (ready_run s)), R.
    rewrite (bind_run _ _ _ _ _ (rd_ctrl_run _)). cbn [world trace].
    unfold expired in X. rewrite X.
    eexists. rewrite <- app_assoc.
    split; [reflexivity|]. split; [reflexivity|]. now repeat constructor.
  - apply fruitless_step in F as (R0 & X0 & F).
    replace (2 * S n + 1)%nat with (S (S (2 * n + 1))) in * by lia.
    replace (2 * S n + 2)%nat with (S (S (2 * n + 2))) in * by lia.
    cbn [elapse] in R, X |- *.
    rewrite (getEcho_poll_turn _ _ R0 X0).
    match goal with
    | |- context [getEcho_poll fuel ?s1] =>
        destruct (IH s1 fuel) as (tr & E & C & W); [exact F | exact R | exact X | lia |]
    end.
    rewrite E. cbn [world trace]. eexists. rewrite <- app_assoc.
    split; [reflexivity|]. split.
    + rewrite rx_reads_app, C. reflexivity.
    + apply Forall_app. split; [now repeat constructor | exact W].
Qed.

(** Once a byte waits in the holding register, hardware events leave it
    there: later characters are lost to overrun. *)
Lemma waiting_byte_stays evs : forall u,
  has_bits (stat u) UART_STAT_RXRDY = true ->
  has_bits (stat (usart_events evs u)) UART_STAT_RXRDY = true /\
  rxdat (usart_events evs u) = rxdat u.
Proof.
  unfold usart_events.
  induction evs as [|ev evs IH]; intros u R; simpl; [now split|].
  assert (has_bits (stat (usart_event ev u)) UART_STAT_RXRDY = true /\
          rxdat (usart_event ev u) = rxdat u) as [R' D'].
  { destruct ev; simpl; try (now split).
    - unfold usart_receive. rewrite R. simpl. split; [|reflexivity].
      rewrite <- R. apply has_bits_land.
      now rewrite Z.land_lor_distr_l, Z.lor_0_r.
    - split; [|reflexivity]. rewrite <- R. apply has_bits_land.
      now rewrite Z.land_lor_distr_l, Z.lor_0_r. }
  destruct (IH _ R') as [R'' D'']. split; [exact R''|]. now rewrite D''.
Qed.

Lemma waiting_byte_step w :
  rx_ready w = true -> rxdat (usart (hw_step w)) = rxdat (usart w).
Proof.
  intros R. rewrite usart_step. now apply waiting_byte_stays.
Qed.

Lemma get_run s :
  get s =
  Some (rxdat (usart (hw_step (world s))) mod 256,
        mkSys (rx_read (world s))
              (trace s ++ [Rd USART1_RXDAT (rxdat (usart (hw_step (world s))))])).
Proof. reflexivity. Qed.

Lemma rx_ready_rx_read w : rx_ready (rx_read w) = false.
Proof.
  unfold rx_ready, rx_read. cbn [reg_read snd usart with_usart stat].
  apply has_bits_false, Z.land_ldiff.
Qed.

Lemma usart_elapse_indep k : forall w w',
  usart w = usart w' -> now w = now w' -> hw w = hw w' ->
  usart (elapse k w) = usart (elapse k w').
Proof.
  induction k as [|k IH]; intros w w' U N H; [exact U|].
  cbn [elapse]. apply IH.
  - rewrite !usart_step. now rewrite U, N, H.
  - rewrite !now_step. now rewrite N.
  - now rewrite !hw_sched_step.
Qed.

Lemma usart_poke_agree r v w w' :
  timer_reg r = true ->
  usart w = usart w' /\ now w = now w' /\ hw w = hw w' ->
  usart (poke r v w) = usart (hw_step w') /\
  now (poke r v w) = now (hw_step w') /\
  hw (poke r v w) = hw (hw_step w').
Proof.
  intros T (U & N & H).
  rewrite now_poke, hw_sched_poke, now_step, hw_sched_step.
  split; [|split; congruence].
  replace (usart (poke r v w)) with (usart (hw_step w))
    by (unfold poke; now destruct r).
  rewrite !usart_step. now rewrite U, N, H.
Qed.

(** Arming the countdown costs three slots and is invisible to USART1. *)
Lemma usart_armed k s :
  usart (elapse k (world (armed s))) = usart (elapse (3 + k) (world s)).
Proof.
  cbn [Nat.add elapse]. unfold armed. cbn [world].
  pose proof (usart_poke_agree SysTick_LOAD (echo_ticks (world s))
                (world s) (world s) eq_refl
                (conj eq_refl (conj eq_refl eq_refl))) as A1.
  pose proof (usart_poke_agree SysTick_VAL 0 _ _ eq_refl A1) as A2.
  pose proof (usart_poke_agree SysTick_CTRL 5 _ _ eq_refl A2) as (U & N & H).
  now apply usart_elapse_indep.
Qed.

(** How the poll loop can end, whatever the hardware did. *)
Lemma getEcho_poll_inv fuel : forall s r s',
  getEcho_poll fuel s = Some (r, s') ->
  exists tr last,
    trace s' = trace s ++ tr ++ [last] /\
    rx_reads tr = 0%nat /\
    if r
    then exists c, last = Rd SysTick_CTRL c /\ has_bits c COUNTFLAG = true
    else exists v, last = Rd USART1_STAT v /\ has_bits v UART_STAT_RXRDY = true.
Proof.
  induction fuel as [|fuel IH]; intros s r s' E; [discriminate|].
  cbn [getEcho_poll] in E.
  rewrite (bind_run _ _ _ _ _ (ready_run s)) in E.
  destruct (rx_ready (hw_step (world s))) eqn:R.
  - inversion E; subst r s'; clear E. cbn [trace].
    exists [], (Rd USART1_STAT (stat (usart (hw_step (world s))))).
    split; [reflexivity|]. split; [reflexivity|]. eexists. split; [reflexivity|exact R].
  - rewrite (bind_run _ _ _ _ _ (rd_ctrl_run _)) in E. cbn [world trace] in E.
    destruct (has_bits (ctrl (systick (hw_step (hw_step (world s))))) COUNTFLAG) eqn:X.
    + inversion E; subst r s'; clear E. cbn [trace].
      exists [Rd USART1_STAT (stat (usart (hw_step (world s))))],
             (Rd SysTick_CTRL (ctrl (systick (hw_step (hw_step (world s)))))).
      rewrite <- app_assoc.
      split; [reflexivity|]. split; [reflexivity|]. eexists. split; [reflexivity|exact X].
    + apply IH in E as (tr & last & T & C & L). cbn [trace] in T.
      exists ([Rd USART1_STAT (stat (usart (hw_step (world s))));
               Rd SysTick_CTRL (ctrl (systick (hw_step (hw_step (world s)))))] ++ tr), last.
      split; [rewrite T; now rewrite <- !app_assoc|].
      split; [rewrite rx_reads_app, C; reflexivity|exact L].
Qed.

(** A run that ends with the receiver ready. *)
Lemma getEcho_echo_run byte s n fuel :
  fruitless (world (armed s)) n ->
  rx_ready (elapse (2 * n + 1) (world (armed s))) = true ->
  (n < fuel)%nat ->
  exists s',
    getEcho fuel byte s =
    Some (rxdat (usart (elapse (2 * n + 1) (world (armed s)))) mod 256 =? byte, s') /\
    rx_reads (trace s') = (rx_reads (trace s) + 1)%nat /\
    rx_ready (world s') = false.
Proof.
  intros F R Hf. unfold getEcho.
  rewrite (bind_run _ _ _ _ _ (getEcho_arm_run s)).
  destruct (getEcho_poll_ready n (armed s) fuel F R Hf) as (tr & E & C & _).
  rewrite (bind_run _ _ _ _ _ E).
  rewrite (bind_run _ _ _ _ _ (get_run _)). cbn [world trace ret].
  rewrite (waiting_byte_step _ R).
  eexists. split; [reflexivity|]. cbn [world trace].
  split; [|apply rx_ready_rx_read].
  unfold armed. cbn [trace]. rewrite !rx_reads_app, C. count_rx_reads.
Qed.

(** C1.  Let poll [n] be the first to find the receiver ready, no earlier
    poll having found the countdown expired; nothing is asked of the count
    flag at poll [n] itself, so it may be up as well.  Then [getEcho], with
    fuel for more than [n] polls, returns; it has read the receive register
    exactly once; and it answers [true] if and only if the byte waiting
    there, cut to eight bits, is [byte]. *)
Theorem getEcho_compares_echo (byte : Z) (s : Sys) (n fuel : nat) :
  fruitless (world (armed s)) n ->
  rx_ready (elapse (2 * n + 1) (world (armed s))) = true ->
  (n < fuel)%nat ->
  exists r s',
    getEcho fuel byte s = Some (r, s') /\
    (r = true <-> rxdat (usart (elapse (2 * n + 1) (world (armed s)))) mod 256 = byte) /\
    rx_reads (trace s') = (rx_reads (trace s) + 1)%nat /\
    rx_ready (world s') = false.
Proof.
  intros F R Hf.
  destruct (getEcho_echo_run byte s n fuel F R Hf) as (s' & E & C & Y).
  eexists _, s'. split; [exact E|].
  split; [apply Z.eqb_eq|]. split; [exact C|exact Y].
Qed.

(** C2.  Let poll [n] be the first to find the countdown expired, the
    receiver not ready at that poll or any earlier one.  Then [getEcho],
    with fuel for more than [n] polls, returns [false]; it has not read the
    receive register; and USART1 is in the state it would be in had the
    bus been left idle for the slots the call took. *)
Theorem getEcho_times_out (byte : Z) (s : Sys) (n fuel : nat) :
  fruitless (world (armed s)) n ->
  rx_ready (elapse (2 * n + 1) (world (armed s))) = false ->
  expired (elapse (2 * n + 2) (world (armed s))) = true ->
  (n < fuel)%nat ->
  exists s',
    getEcho fuel byte s = Some (false, s') /\
    rx_reads (trace s') = rx_reads (trace s) /\
    usart (world s') = usart (elapse (3 + (2 * n + 2)) (world s)).
Proof.
  intros F R X Hf. unfold getEcho.
  rewrite (bind_run _ _ _ _ _ (getEcho_arm_run s)).
  destruct (getEcho_poll_expired n (armed s) fuel F R X Hf) as (tr & E & C & _).
  rewrite (bind_run _ _ _ _ _ E).
  eexists. split; [reflexivity|]. cbn [world trace]. split.
  - unfold armed. cbn [trace]. rewrite !rx_reads_app, C. count_rx_reads.
  - unfold ctrl_read. cbn [reg_read snd usart with_systick]. apply usart_armed.
Qed.

(** How [getEcho] can end, whatever the hardware did. *)
Lemma getEcho_inv fuel byte s s' r :
  getEcho fuel byte s = Some (r, s') ->
  (exists tr c,
      trace s' = trace s ++ tr ++ [Rd SysTick_CTRL c] /\
      has_bits c COUNTFLAG = true /\
      r = false /\
      rx_reads (trace s') = rx_reads (trace s)) \/
  (exists tr v,
      trace s' = trace s ++ tr ++ [Rd USART1_RXDAT v] /\
      rx_reads tr = 0%nat /\
      r = (v mod 256 =? byte) /\
      rx_reads (trace s') = (rx_reads (trace s) + 1)%nat /\
      rx_ready (world s') = false).
Proof.
  unfold getEcho. intros E.
  rewrite (bind_run _ _ _ _ _ (getEcho_arm_run s)) in E.
  apply bind_inv in E as (timed_out & s1 & E1 & E).
  apply getEcho_poll_inv in E1 as (tr & last & T & C & L).
  unfold armed in T. cbn [trace] in T.
  destruct timed_out; cbv beta iota in E.
  - unfold ret in E. inversion E; subst r s'; clear E. destruct L as (c & -> & X).
    left. exists (arm_accesses (world s) ++ tr), c. rewrite T, <- !app_assoc.
    split; [reflexivity|]. split; [exact X|]. split; [reflexivity|].
    rewrite !rx_reads_app, C. count_rx_reads.
  - rewrite (bind_run _ _ _ _ _ (get_run _)) in E. unfold ret in E.
    inversion E; subst r s'; clear E. destruct L as (v & -> & _).
    right.
    exists (arm_accesses (world s) ++ tr ++ [Rd USART1_STAT v]),
           (rxdat (usart (hw_step (world s1)))).
    cbn [world trace]. rewrite T, <- !app_assoc.
    split; [reflexivity|].
    split; [rewrite !rx_reads_app, C; reflexivity|].
    split; [reflexivity|].
    split; [|apply rx_ready_rx_read].
    rewrite !rx_reads_app, C. count_rx_reads.
Qed.

(** C10.  If the poll loop ends on a ready receiver whose byte is not
    [byte], [getEcho] returns [false] and has nevertheless read the receive
    register, once, leaving the receiver empty.  More generally, whenever
    [getEcho] returns, it returned in one of two ways.  Either its last
    access was a read of the timer control register that showed the count
    flag: it answers [false] and has not read the receive register.  Or
    its last access was a read of the receive register: that is its one
    read of that register, the receiver is left empty, and the answer is
    the comparison of the byte read with [byte]. *)
Theorem getEcho_consumes_unless_timeout (fuel : nat) (byte : Z) (s : Sys) :
  (forall n,
      fruitless (world (armed s)) n ->
      rx_ready (elapse (2 * n + 1) (world (armed s))) = true ->
      (n < fuel)%nat ->
      rxdat (usart (elapse (2 * n + 1) (world (armed s)))) mod 256 <> byte ->
      exists s',
        getEcho fuel byte s = Some (false, s') /\
        rx_reads (trace s') = (rx_reads (trace s) + 1)%nat /\
        rx_ready (world s') = false) /\
  (forall r s',
      getEcho fuel byte s = Some (r, s') ->
      (exists tr c,
          trace s' = trace s ++ tr ++ [Rd SysTick_CTRL c] /\
          has_bits c COUNTFLAG = true /\
          r = false /\
          rx_reads (trace s') = rx_reads (trace s)) \/
      (exists tr v,
          trace s' = trace s ++ tr ++ [Rd USART1_RXDAT v] /\
          rx_reads tr = 0%nat /\
          r = (v mod 256 =? byte) /\
          rx_reads (trace s') = (rx_reads (trace s) + 1)%nat /\
          rx_ready (world s') = false)).
Proof.
  split.
  - intros n F R Hf Hne.
    destruct (getEcho_echo_run byte s n fuel F R Hf) as (s' & E & C & Y).
    exists s'. split; [|split; [exact C|exact Y]].
    rewrite E. apply Z.eqb_neq in Hne. now rewrite Hne.
  - intros r s'. apply getEcho_inv.
Qed.

(** *** Runs of [getEcho] *)

Lemma getEcho_compares_echo_witness :
  fruitless (world (armed echo_ties_with_expiry)) 1 /\
  rx_ready (elapse 3 (world (armed echo_ties_with_expiry))) = true /\
  expired (elapse 3 (world (armed echo_ties_with_expiry))) = true /\
  exists s',
    getEcho 2 0x55 echo_ties_with_expiry = Some (true, s') /\
    rx_reads (trace s') = 1%nat /\
    rx_ready (world s') = false.
Proof.
  assert (F : fruitless (world (armed echo_ties_with_expiry)) 1).
  { intros i Hi. destruct i as [|i]; [split; reflexivity | lia]. }
  split; [exact F|]. split; [reflexivity|]. split; [reflexivity|].
  destruct (getEcho_compares_echo 0x55 echo_ties_with_expiry 1 2 F eq_refl)
    as (r & s' & E & Hr & C & Y); [lia|].
  exists s'. rewrite <- (proj2 Hr eq_refl). split; [exact E|]. split; [exact C|exact Y].
Defined.

Lemma getEcho_times_out_witness :
  fruitless (world (armed echo_too_late)) 1 /\
  exists s',
    getEcho 2 0x55 echo_too_late = Some (false, s') /\
    rx_reads (trace s') = 0%nat /\
    usart (world s') = mkUsart UART_STAT_RXRDY 0x55 [].
Proof.
  assert (F : fruitless (world (armed echo_too_late)) 1).
  { intros i Hi. destruct i as [|i]; [split; reflexivity | lia]. }
  split; [exact F|].
  destruct (getEcho_times_out 0x55 echo_too_late 1 2 F eq_refl eq_refl)
    as (s' & E & C & U); [lia|].
  exists s'. split; [exact E|]. split; [exact C|exact U].
Defined.

Lemma getEcho_consumes_unless_timeout_witness :
  fruitless (world (armed wrong_echo)) 1 /\
  exists s',
    getEcho 2 0x55 wrong_echo = Some (false, s') /\
    rx_reads (trace s') = 1%nat /\
    rx_ready (world s') = false.
Proof.
  assert (F : fruitless (world (armed wrong_echo)) 1).
  { intros i Hi. destruct i as [|i]; [split; reflexivity | lia]. }
  split; [exact F|].
  apply (proj1 (getEcho_consumes_unless_timeout 2 0x55 wrong_echo) 1%nat F).
  - reflexivity.
  - lia.
  - vm_compute. discriminate.
Defined.

(** * Further properties *)

(** ** [setBitBang]: what a call selects, and how calls compose *)

Lemma lor_land_absorb p m : Z.lor (Z.land p m) m = m.
Proof.
  apply Z.bits_inj'. intros n _. rewrite Z.lor_spec, Z.land_spec.
  destruct (Z.testbit p n), (Z.testbit m n); reflexivity.
Qed.

Lemma route_fields val p :
  Z.land (route val p) UART_ROUTE_MASK = (if val then UART_ROUTE_MASK else PinAssign) /\
  Z.land (route val p) OTHER_ROUTES_MASK = Z.land p OTHER_ROUTES_MASK.
Proof.
  unfold route. destruct val; rewrite !Z.land_lor_distr_l.
  - change (Z.land UART_ROUTE_MASK UART_ROUTE_MASK) with UART_ROUTE_MASK.
    change (Z.land UART_ROUTE_MASK OTHER_ROUTES_MASK) with 0.
    split; [apply lor_land_absorb | apply Z.lor_0_r].
  - rewrite <- !Z.land_assoc.
    change (Z.land OTHER_ROUTES_MASK UART_ROUTE_MASK) with 0.
    change (Z.land OTHER_ROUTES_MASK OTHER_ROUTES_MASK) with OTHER_ROUTES_MASK.
    change (Z.land PinAssign UART_ROUTE_MASK) with PinAssign.
    change (Z.land PinAssign OTHER_ROUTES_MASK) with 0.
    now rewrite Z.land_0_r, Z.lor_0_l, Z.lor_0_r.
Qed.

Lemma byte_field p c sh :
  Z.land p UART_ROUTE_MASK = c ->
  Z.land (Z.shiftr UART_ROUTE_MASK sh) 0xFF = 0xFF ->
  Z.land (Z.shiftr p sh) 0xFF = Z.land (Z.shiftr c sh) 0xFF.
Proof.
  intros <- Hm. rewrite Z.shiftr_land, <- Z.land_assoc. now rewrite Hm.
Qed.

(** X1.  Whatever the pin-multiplexing word was, after [setBitBang] its
    byte at bits 8..15 and its byte at bits 16..23 are both 0xFF in
    bit-bang mode, and [TxPin] and [RxPin] in UART mode; the two other
    bytes of the word, bits 0..7 and 24..31, are as before. *)
Theorem setBitBang_selects_route (val : bool) (s : Sys) :
  exists s',
    setBitBang val s = Some (tt, s') /\
    Z.land (Z.shiftr (pinassign s') 8) 0xFF = (if val then 0xFF else TxPin) /\
    Z.land (Z.shiftr (pinassign s') 16) 0xFF = (if val then 0xFF else RxPin) /\
    Z.land (pinassign s') 0xFF0000FF = Z.land (pinassign s) 0xFF0000FF.
Proof.
  destruct (setBitBang_run val s) as (s' & E & P & _).
  exists s'. split; [exact E|]. rewrite P.
  destruct (route_fields val (pinassign s)) as [F O].
  split; [|split; [|exact O]].
  - rewrite (byte_field _ _ 8 F eq_refl). now destruct val.
  - rewrite (byte_field _ _ 16 F eq_refl). now destruct val.
Qed.

Lemma route_last_wins a b p :
  0 <= p < 2 ^ 32 -> route b (route a p) = route b p.
Proof.
  intros R. destruct a, b; try apply route_idem; [apply route_on_off|].
  unfold route. rewrite <- Z.lor_assoc.
  change (Z.lor PinAssign UART_ROUTE_MASK) with UART_ROUTE_MASK.
  assert (Hp : p = Z.land p (Z.lor OTHER_ROUTES_MASK UART_ROUTE_MASK)).
  { change (Z.lor OTHER_ROUTES_MASK UART_ROUTE_MASK) with (Z.ones 32).
    rewrite Z.land_ones by lia. symmetry. now apply Z.mod_small. }
  rewrite Hp at 2. rewrite Z.land_lor_distr_r, <- Z.lor_assoc.
  now rewrite lor_land_absorb.
Qed.

(** X2.  On a 32-bit pin-multiplexing word the last mode switch wins: two
    calls of [setBitBang] in a row, with any two flags, leave the word as
    the second call alone would have left it. *)
Theorem setBitBang_last_call_wins (a b : bool) (s : Sys) :
  0 <= pinassign s < 2 ^ 32 ->
  exists s1 s2,
    (setBitBang a ;; setBitBang b) s = Some (tt, s1) /\
    setBitBang b s = Some (tt, s2) /\
    pinassign s1 = pinassign s2.
Proof.
  intros R.
  destruct (setBitBang_run a s) as (sa & Ea & Pa & _).
  destruct (setBitBang_run b sa) as (s1 & E1 & P1 & _).
  destruct (setBitBang_run b s) as (s2 & E2 & P2 & _).
  exists s1, s2. split; [now rewrite (bind_run _ _ _ _ _ Ea)|].
  split; [exact E2|]. rewrite P1, Pa, P2. now apply route_last_wins.
Qed.

Lemma setBitBang_last_call_wins_witness :
  0 <= pinassign (boot silence) < 2 ^ 32 /\
  exists s1 s2,
    (setBitBang false ;; setBitBang true) (boot silence) = Some (tt, s1) /\
    setBitBang true (boot silence) = Some (tt, s2) /\
    pinassign s1 = pinassign s2.
Proof.
  assert (R : 0 <= pinassign (boot silence) < 2 ^ 32).
  { vm_compute. split; [discriminate | reflexivity]. }
  split; [exact R|].
  exact (setBitBang_last_call_wins false true (boot silence) R).
Defined.

(** ** [configure]: registers, pins, and a second call *)

Lemma regs_and_pins_step w : regs_and_pins (hw_step w) = regs_and_pins w.
Proof.
  unfold regs_and_pins.
  now rewrite mem_step, pin_mode_step, pin_dir_step, pin_out_step.
Qed.

Lemma regs_and_pins_inv w m pm pd po :
  regs_and_pins w = (m, pm, pd, po) ->
  mem w = m /\ pin_mode (gpio w) = pm /\ pin_dir (gpio w) = pd /\ pin_out (gpio w) = po.
Proof. unfold regs_and_pins. intros E. now inversion E. Qed.

Lemma rd_plain_step r s m pm pd po :
  plain r = true ->
  regs_and_pins (world s) = (m, pm, pd, po) ->
  exists s1,
    rd r s = Some (m r, s1) /\
    regs_and_pins (world s1) = (m, pm, pd, po) /\
    trace s1 = trace s ++ [Rd r (m r)].
Proof.
  intros P H. rewrite (rd_plain_run r s P).
  destruct (regs_and_pins_inv _ _ _ _ _ H) as (<- & _).
  eexists. split; [reflexivity|]. cbn [world trace].
  split; [now rewrite regs_and_pins_step | reflexivity].
Qed.

Ltac next_view H :=
  let N1 := fresh "N" in let N2 := fresh "N" in
  let N3 := fresh "N" in let N4 := fresh "N" in
  rewrite <- regs_and_pins_step in H;
  destruct (regs_and_pins_inv _ _ _ _ _ H) as (N1 & N2 & N3 & N4);
  unfold regs_and_pins;
  cbn [reg_write gpio_config gpio_set_dir gpio_write
       with_mem with_gpio mem gpio pin_mode pin_dir pin_out];
  now rewrite N1, N2, N3, N4.

Lemma wr_plain_step r v s m pm pd po :
  plain r = true ->
  regs_and_pins (world s) = (m, pm, pd, po) ->
  exists s1,
    wr r v s = Some (tt, s1) /\
    regs_and_pins (world s1) = (<[r := v]> m, pm, pd, po) /\
    trace s1 = trace s ++ [Wr r v].
Proof.
  intros P H. rewrite wr_run. eexists. split; [reflexivity|]. cbn [world trace].
  split; [|reflexivity]. unfold poke.
  destruct r; try discriminate P; next_view H.
Qed.

Lemma GPIOPinConfig_step port pin md s m pm pd po :
  regs_and_pins (world s) = (m, pm, pd, po) ->
  exists s1,
    GPIOPinConfig port pin md s = Some (tt, s1) /\
    regs_and_pins (world s1) = (m, <[(port, pin) := md]> pm, pd, po) /\
    trace s1 = trace s ++ [PinCfg port pin md].
Proof.
  intros H. eexists. split; [reflexivity|]. cbn [world trace fst snd].
  split; [|reflexivity]. next_view H.
Qed.

Lemma GPIOSetDir_step port pin d s m pm pd po :
  regs_and_pins (world s) = (m, pm, pd, po) ->
  exists s1,
    GPIOSetDir port pin d s = Some (tt, s1) /\
    regs_and_pins (world s1) = (m, pm, <[(port, pin) := d]> pd, po) /\
    trace s1 = trace s ++ [PinDirSet port pin d].
Proof.
  intros H. eexists. split; [reflexivity|]. cbn [world trace fst snd].
  split; [|reflexivity]. next_view H.
Qed.

Lemma setBit_step bld bit s m pm pd po :
  regs_and_pins (world s) = (m, pm, pd, po) ->
  exists s1,
    setBit bld bit s = Some (tt, s1) /\
    regs_and_pins (world s1) = (m, pm, pd, <[(TxPort, TxPin) := driven bld bit]> po) /\
    trace s1 = trace s ++ [PinWr TxPort TxPin (driven bld bit)].
Proof.
  intros H. rewrite setBit_run. eexists. split; [reflexivity|]. cbn [world trace].
  split; [|reflexivity]. next_view H.
Qed.

(** Run the access at the head of the program with its step lemma [L]. *)
Ltac step L :=
  match goal with
  | Hv : regs_and_pins (world ?s0) = _ |- context [bind _ _ ?s0] =>
      let s1 := fresh "s" in
      let E := fresh "E" in
      let V := fresh "V" in
      let T := fresh "T" in
      edestruct L as (s1 & E & V & T); [reflexivity .. | exact Hv |];
      rewrite (bind_run _ _ _ _ _ E); clear E Hv
  end.

Lemma configure_effect bld s :
  exists s',
    configure bld s = Some (tt, s') /\
    trace s' = trace s ++ configure_accesses bld (mem (world s) SYSCON_SYSAHBCLKCTRL1)
                                                 (mem (world s) SYSCON_PRESETCTRL1) /\
    regs_and_pins (world s') =
      (<[SYSCON_UARTCLKDIV := 1]>
         (<[SYSCON_PRESETCTRL1 :=
              Z.land (Z.lor (mem (world s) SYSCON_PRESETCTRL1) (Z.shiftl 1 18))
                     RESET_RELEASE]>
            (<[SYSCON_PRESETCTRL1 :=
                 Z.lor (mem (world s) SYSCON_PRESETCTRL1) (Z.shiftl 1 18)]>
               (<[SYSCON_SYSAHBCLKCTRL1 :=
                    Z.lor (mem (world s) SYSCON_SYSAHBCLKCTRL1) (Z.shiftl 1 18)]>
                  (mem (world s))))),
       <[(TxPort, TxPin) := if OPEN_DRAIN bld then GPIO_OPEN_DRAIN else GPIO_PLAIN]>
         (<[(RxPort, RxPin) := if INVERT_OUTPUT bld then GPIO_HYSTERESIS else GPIO_PLAIN]>
            (pin_mode (gpio (world s)))),
       <[(TxPort, TxPin) := GPIO_OUTPUT]>
         (<[(RxPort, RxPin) := GPIO_INPUT]> (pin_dir (gpio (world s)))),
       <[(TxPort, TxPin) := if INVERT_OUTPUT bld then 0 else 1]> (pin_out (gpio (world s)))).
Proof.
  assert (V0 : regs_and_pins (world s) =
               (mem (world s), pin_mode (gpio (world s)), pin_dir (gpio (world s)),
                pin_out (gpio (world s)))) by reflexivity.
  unfold configure.
  step (GPIOPinConfig_step RxPort RxPin
          (if INVERT_OUTPUT bld then GPIO_HYSTERESIS else GPIO_PLAIN)).
  step (GPIOPinConfig_step TxPort TxPin
          (if OPEN_DRAIN bld then GPIO_OPEN_DRAIN else GPIO_PLAIN)).
  step (GPIOSetDir_step RxPort RxPin GPIO_INPUT).
  step (GPIOSetDir_step TxPort TxPin GPIO_OUTPUT).
  step (rd_plain_step SYSCON_SYSAHBCLKCTRL1).
  step (wr_plain_step SYSCON_SYSAHBCLKCTRL1
          (Z.lor (mem (world s) SYSCON_SYSAHBCLKCTRL1) (Z.shiftl 1 18))).
  step (rd_plain_step SYSCON_PRESETCTRL1).
  rewrite fn_lookup_insert_ne by discriminate.
  step (wr_plain_step SYSCON_PRESETCTRL1
          (Z.lor (mem (world s) SYSCON_PRESETCTRL1) (Z.shiftl 1 18))).
  step (rd_plain_step SYSCON_PRESETCTRL1).
  rewrite fn_lookup_insert.
  step (wr_plain_step SYSCON_PRESETCTRL1
          (Z.land (Z.lor (mem (world s) SYSCON_PRESETCTRL1) (Z.shiftl 1 18))
                  RESET_RELEASE)).
  step (wr_plain_step SYSCON_UARTCLKDIV 1).
  destruct (setBit_step bld 1 _ _ _ _ _ V) as (s' & E & V' & T').
  exists s'. split; [exact E|].
  assert (D : driven bld 1 = if INVERT_OUTPUT bld then 0 else 1)
    by (unfold driven; now destruct (INVERT_OUTPUT bld)).
  rewrite D in V', T'.
  split; [|exact V'].
  rewrite T', T9, T8, T7, T6, T5, T4, T3, T2, T1, T0, T.
  rewrite <- !app_assoc. reflexivity.
Qed.

Ltac fn_lookup :=
  repeat first [ rewrite fn_lookup_insert
               | rewrite fn_lookup_insert_ne by discriminate ].

Lemma reset_pulse p :
  0 <= p < 2 ^ 32 ->
  Z.land (Z.lor p (Z.shiftl 1 18)) RESET_RELEASE = Z.ldiff p (Z.shiftl 1 18).
Proof.
  intros R.
  assert (Hp : p = Z.land p (Z.ones 32)).
  { rewrite Z.land_ones by lia. symmetry. now apply Z.mod_small. }
  change RESET_RELEASE with (Z.ldiff (Z.ones 32) (Z.shiftl 1 18)).
  apply Z.bits_inj'. intros n _.
  rewrite Z.land_spec, Z.lor_spec, !Z.ldiff_spec.
  rewrite Hp at 1 2. rewrite Z.land_spec.
  destruct (Z.testbit p n), (Z.testbit (Z.ones 32) n), (Z.testbit (Z.shiftl 1 18) n);
    reflexivity.
Qed.

Lemma reset_pulse_idem p :
  Z.land (Z.lor (Z.land (Z.lor p (Z.shiftl 1 18)) RESET_RELEASE) (Z.shiftl 1 18))
         RESET_RELEASE =
  Z.land (Z.lor p (Z.shiftl 1 18)) RESET_RELEASE.
Proof.
  rewrite (Z.land_lor_distr_l (Z.land _ _)), <- Z.land_assoc.
  change (Z.land RESET_RELEASE RESET_RELEASE) with RESET_RELEASE.
  change (Z.land (Z.shiftl 1 18) RESET_RELEASE) with 0.
  apply Z.lor_0_r.
Qed.

(** X3.  [configure] makes twelve accesses in a fixed order: the two pin
    modes, the two pin directions, the clock enable, the reset pulse (set,
    then clear), the clock divider, the TX level.  Afterwards bit 18 of the
    clock control register is set and its other bits are as before; bit 18
    of the (32-bit) reset control register is clear and its other bits are
    as before; the UART clock divider is 1; and no other plain register,
    the pin-multiplexing register in particular, has changed. *)
Theorem configure_clocks_and_resets_usart1 (bld : Build) (s : Sys) :
  0 <= mem (world s) SYSCON_PRESETCTRL1 < 2 ^ 32 ->
  exists s',
    configure bld s = Some (tt, s') /\
    trace s' = trace s ++ configure_accesses bld (mem (world s) SYSCON_SYSAHBCLKCTRL1)
                                                 (mem (world s) SYSCON_PRESETCTRL1) /\
    mem (world s') SYSCON_SYSAHBCLKCTRL1 =
      Z.lor (mem (world s) SYSCON_SYSAHBCLKCTRL1) (Z.shiftl 1 18) /\
    mem (world s') SYSCON_PRESETCTRL1 =
      Z.ldiff (mem (world s) SYSCON_PRESETCTRL1) (Z.shiftl 1 18) /\
    mem (world s') SYSCON_UARTCLKDIV = 1 /\
    pinassign s' = pinassign s /\
    (forall r, r <> SYSCON_SYSAHBCLKCTRL1 -> r <> SYSCON_PRESETCTRL1 ->
               r <> SYSCON_UARTCLKDIV -> mem (world s') r = mem (world s) r).
Proof.
  intros R. destruct (configure_effect bld s) as (s' & E & T & V).
  apply regs_and_pins_inv in V as (M & _).
  exists s'. split; [exact E|]. split; [exact T|]. unfold pinassign. rewrite M.
  split; [now fn_lookup|]. split; [fn_lookup; now apply reset_pulse|].
  split; [now fn_lookup|]. split; [now fn_lookup|].
  intros r N1 N2 N3. now rewrite !fn_lookup_insert_ne by congruence.
Qed.

Lemma configure_clocks_and_resets_usart1_witness :
  0 <= mem (world (boot silence)) SYSCON_PRESETCTRL1 < 2 ^ 32 /\
  exists s',
    configure stock_build (boot silence) = Some (tt, s') /\
    mem (world s') SYSCON_SYSAHBCLKCTRL1 = 0x40000 /\
    mem (world s') SYSCON_PRESETCTRL1 = 0 /\
    mem (world s') SYSCON_UARTCLKDIV = 1 /\
    pinassign s' = 0xFFFFFFFF.
Proof.
  assert (R : 0 <= mem (world (boot silence)) SYSCON_PRESETCTRL1 < 2 ^ 32).
  { vm_compute. split; [discriminate | reflexivity]. }
  split; [exact R|].
  destruct (configure_clocks_and_resets_usart1 stock_build (boot silence) R)
    as (s' & E & _ & C & P & D & A & _).
  exists s'. split; [exact E|]. split; [exact C|]. split; [exact P|].
  split; [exact D | exact A].
Defined.

Lemma rx_tx_differ : (RxPort, RxPin) <> (TxPort, TxPin).
Proof. discriminate. Qed.

(** X4.  After [configure] the RX pin is an input, with hysteresis exactly
    in the inverted build; the TX pin is an output, open-drain exactly in
    the open-drain build; and the mode, direction and driven level of
    every other pin are as before. *)
Theorem configure_sets_up_both_pins (bld : Build) (s : Sys) :
  exists s',
    configure bld s = Some (tt, s') /\
    pin_mode (gpio (world s')) !! (RxPort, RxPin) =
      Some (if INVERT_OUTPUT bld then GPIO_HYSTERESIS else GPIO_PLAIN) /\
    pin_mode (gpio (world s')) !! (TxPort, TxPin) =
      Some (if OPEN_DRAIN bld then GPIO_OPEN_DRAIN else GPIO_PLAIN) /\
    pin_dir (gpio (world s')) !! (RxPort, RxPin) = Some GPIO_INPUT /\
    pin_dir (gpio (world s')) !! (TxPort, TxPin) = Some GPIO_OUTPUT /\
    (forall pin : Pin,
        pin <> (RxPort, RxPin) -> pin <> (TxPort, TxPin) ->
        pin_mode (gpio (world s')) !! pin = pin_mode (gpio (world s)) !! pin /\
        pin_dir (gpio (world s')) !! pin = pin_dir (gpio (world s)) !! pin /\
        pin_out (gpio (world s')) !! pin = pin_out (gpio (world s)) !! pin).
Proof.
  destruct (configure_effect bld s) as (s' & E & _ & V).
  apply regs_and_pins_inv in V as (_ & PM & PD & PO).
  pose proof rx_tx_differ as D.
  exists s'. split; [exact E|]. rewrite PM, PD, PO.
  split; [now rewrite lookup_insert_ne, lookup_insert_eq by congruence|].
  split; [now rewrite lookup_insert_eq|].
  split; [now rewrite lookup_insert_ne, lookup_insert_eq by congruence|].
  split; [now rewrite lookup_insert_eq|].
  intros pin N1 N2. now rewrite !lookup_insert_ne by congruence.
Qed.

(** X5.  A second [configure] changes nothing that the first one set:
    after two calls in a row every plain register and every pin's mode,
    direction and driven level are as after one call. *)
Theorem configure_again_changes_nothing (bld : Build) (s : Sys) :
  exists s1 s2,
    configure bld s = Some (tt, s1) /\
    (configure bld ;; configure bld) s = Some (tt, s2) /\
    (forall r, mem (world s2) r = mem (world s1) r) /\
    pin_mode (gpio (world s2)) = pin_mode (gpio (world s1)) /\
    pin_dir (gpio (world s2)) = pin_dir (gpio (world s1)) /\
    pin_out (gpio (world s2)) = pin_out (gpio (world s1)).
Proof.
  destruct (configure_effect bld s) as (s1 & E1 & _ & V1).
  destruct (configure_effect bld s1) as (s2 & E2 & _ & V2).
  apply regs_and_pins_inv in V2 as (M2 & PM2 & PD2 & PO2).
  apply regs_and_pins_inv in V1 as (M1 & PM1 & PD1 & PO1).
  pose proof rx_tx_differ as D.
  exists s1, s2. split; [exact E1|].
  split; [now rewrite (bind_run _ _ _ _ _ E1)|].
  split; [|split; [|split]].
  - intros r. rewrite M2, M1.
    destruct r; fn_lookup; try reflexivity.
    + now rewrite <- Z.lor_assoc, Z.lor_diag.
    + apply reset_pulse_idem.
  - rewrite PM2, PM1.
    rewrite (insert_insert_ne _ (RxPort, RxPin) (TxPort, TxPin)) by exact D.
    now rewrite !insert_insert_eq.
  - rewrite PD2, PD1.
    rewrite (insert_insert_ne _ (RxPort, RxPin) (TxPort, TxPin)) by exact D.
    now rewrite !insert_insert_eq.
  - rewrite PO2, PO1. now rewrite insert_insert_eq.
Qed.

(** ** [setBit] and [getBit] *)

(** X6.  For a logical level 0 or 1, in either build, [setBit] makes one
    access, a write of the TX pin, with the level itself in the plain build
    and its complement in the inverted build, so that the K-line behind the
    driver carries the level asked for.  No register and no pin mode or
    direction changes, and no other pin's level. *)
Theorem setBit_drives_logical_level (bld : Build) (bit : Z) (s : Sys) :
  0 <= bit <= 1 ->
  exists s',
    setBit bld bit s = Some (tt, s') /\
    trace s' = trace s ++ [PinWr TxPort TxPin (if INVERT_OUTPUT bld then 1 - bit else bit)] /\
    tx_pin_level (world s') = (if INVERT_OUTPUT bld then 1 - bit else bit) /\
    kline_level bld (world s') = bit /\
    mem (world s') = mem (world s) /\
    pin_mode (gpio (world s')) = pin_mode (gpio (world s)) /\
    pin_dir (gpio (world s')) = pin_dir (gpio (world s)) /\
    (forall pin : Pin, pin <> (TxPort, TxPin) ->
                       pin_out (gpio (world s')) !! pin = pin_out (gpio (world s)) !! pin).
Proof.
  intros R.
  destruct (setBit_step bld bit s _ _ _ _ eq_refl) as (s' & E & V & T).
  apply regs_and_pins_inv in V as (M & PM & PD & PO).
  assert (D : driven bld bit = if INVERT_OUTPUT bld then 1 - bit else bit).
  { unfold driven. destruct (INVERT_OUTPUT bld); [|reflexivity].
    assert (bit = 0 \/ bit = 1) as [-> | ->] by lia; reflexivity. }
  assert (L : tx_pin_level (world s') = driven bld bit).
  { unfold tx_pin_level. now rewrite PO, lookup_insert_eq. }
  exists s'. split; [exact E|]. rewrite <- D. split; [exact T|].
  split; [exact L|]. split.
  - unfold kline_level. rewrite L. unfold driven.
    destruct (INVERT_OUTPUT bld); [|reflexivity].
    assert (bit = 0 \/ bit = 1) as [-> | ->] by lia; reflexivity.
  - split; [exact M|]. split; [exact PM|]. split; [exact PD|].
    intros pin N. rewrite PO. now rewrite lookup_insert_ne by congruence.
Qed.

Lemma setBit_drives_logical_level_witness :
  0 <= 0 <= 1 /\
  exists s',
    setBit (mkBuild true false) 0 (boot silence) = Some (tt, s') /\
    tx_pin_level (world s') = 1 /\
    kline_level (mkBuild true false) (world s') = 0.
Proof.
  split; [lia|].
  destruct (setBit_drives_logical_level (mkBuild true false) 0 (boot silence))
    as (s' & E & _ & L & K & _); [lia|].
  exists s'. split; [exact E|]. split; [exact L | exact K].
Defined.

Lemma rx_pin_still_events evs : forall w,
  forallb (fun ev => match ev with
                     | PinLevel port pin _ => negb ((port =? RxPort) && (pin =? RxPin))
                     | _ => true
                     end) evs = true ->
  gpio_read RxPort RxPin (hw_events evs w) = gpio_read RxPort RxPin w.
Proof.
  unfold hw_events.
  induction evs as [|ev evs IH]; intros w Q; cbn [fold_left]; [reflexivity|].
  cbn [forallb] in Q. apply andb_true_iff in Q as [Q1 Q2].
  rewrite (IH _ Q2). unfold gpio_read.
  destruct ev as [b fe pe | | | port pin level]; cbn [hw_event]; try reflexivity.
  - now destruct (has_bits _ _).
  - cbn [gpio with_gpio pin_in]. rewrite lookup_insert_ne; [reflexivity|].
    intros [= -> ->]. now rewrite !Z.eqb_refl in Q1.
Qed.

Lemma rx_pin_still_step w :
  rx_pin_still w (now w) = true ->
  gpio_read RxPort RxPin (hw_step w) = gpio_read RxPort RxPin w.
Proof.
  intros Q. unfold hw_step, gpio_read. cbn [gpio with_now].
  now apply rx_pin_still_events.
Qed.

Lemma getBit_run s :
  getBit s =
  Some (gpio_read RxPort RxPin (hw_step (world s)),
        mkSys (hw_step (world s))
              (trace s ++ [PinRd RxPort RxPin (gpio_read RxPort RxPin (hw_step (world s)))])).
Proof. reflexivity. Qed.

(** X7.  [getBit] only samples: while the hardware does not move the RX
    pin, any number of calls in a row all return the level the pin has,
    each call makes one access, a read of the RX pin (never of the TX
    pin), and the machine is left as idle bus slots would have left it. *)
Theorem getBit_only_samples_rx_pin (k : nat) : forall s : Sys,
  rx_pin_steady (world s) k ->
  getBit_times k s =
  Some (repeat (gpio_read RxPort RxPin (world s)) k,
        mkSys (elapse k (world s))
              (trace s ++ repeat (PinRd RxPort RxPin (gpio_read RxPort RxPin (world s))) k)).
Proof.
  induction k as [|k IH]; intros s Q.
  - cbn. rewrite app_nil_r. now destruct s.
  - assert (Q0 : rx_pin_still (world s) (now (world s)) = true).
    { specialize (Q 0%nat). rewrite Nat.add_0_r in Q. apply Q. lia. }
    assert (Q' : rx_pin_steady (hw_step (world s)) k).
    { intros i Hi. unfold rx_pin_still. rewrite hw_sched_step, now_step.
      replace (S (now (world s)) + i)%nat with (now (world s) + S i)%nat by lia.
      apply Q. lia. }
    cbn [getBit_times]. rewrite (bind_run _ _ _ _ _ (getBit_run s)).
    erewrite bind_run by (apply IH; exact Q').
    cbn [world trace ret repeat elapse].
    now rewrite (rx_pin_still_step _ Q0), <- app_assoc.
Qed.

Lemma getBit_only_samples_rx_pin_witness :
  rx_pin_steady (world rx_pin_rises) 3 /\
  exists s',
    getBit_times 3 rx_pin_rises = Some ([1; 1; 1], s') /\
    trace s' = [PinRd 0 7 1; PinRd 0 7 1; PinRd 0 7 1].
Proof.
  assert (Q : rx_pin_steady (world rx_pin_rises) 3).
  { intros i Hi.
    destruct i as [|[|[|i]]]; [reflexivity | reflexivity | reflexivity | lia]. }
  split; [exact Q|].
  eexists. split; [exact (getBit_only_samples_rx_pin 3 rx_pin_rises Q) | reflexivity].
Defined.

(** ** [get] *)

Lemma quiet_step_rxdat w :
  quiet_rx w (now w) = true -> rxdat (usart (hw_step w)) = rxdat (usart w).
Proof. intros Q. now apply (quiet_step_stat 0 w eq_refl Q). Qed.

(** X8.  [get] never looks at the receive-ready bit: it reads the receive
    register at once, whatever the status, and returns the holding
    register's content cut to eight bits.  So two calls in a row with no
    reception in between return the same byte twice, after two reads of
    the register, and leave receive-ready clear. *)
Theorem get_rereads_holding_register (s : Sys) :
  no_arrival (world s) 2 ->
  exists s',
    get_twice s = Some ((rxdat (usart (world s)) mod 256,
                         rxdat (usart (world s)) mod 256), s') /\
    0 <= rxdat (usart (world s)) mod 256 < 256 /\
    trace s' = trace s ++ [Rd USART1_RXDAT (rxdat (usart (world s)));
                           Rd USART1_RXDAT (rxdat (usart (world s)))] /\
    rx_ready (world s') = false.
Proof.
  intros Q. apply no_arrival_step in Q as [Q0 Q].
  assert (Q1 : quiet_rx (rx_read (world s)) (now (rx_read (world s))) = true).
  { specialize (Q 0%nat ltac:(lia)). rewrite Nat.add_0_r in Q. exact Q. }
  unfold get_twice.
  rewrite (bind_run _ _ _ _ _ (get_run s)).
  rewrite (bind_run _ _ _ _ _ (get_run _)). cbn [world trace ret].
  rewrite (quiet_step_rxdat _ Q1).
  replace (rxdat (usart (rx_read (world s)))) with (rxdat (usart (hw_step (world s))))
    by reflexivity.
  rewrite (quiet_step_rxdat _ Q0).
  eexists. split; [reflexivity|]. cbn [world trace].
  split; [apply Z.mod_pos_bound; lia|].
  split; [now rewrite <- app_assoc | apply rx_ready_rx_read].
Qed.

Lemma get_rereads_holding_register_witness :
  no_arrival (world byte_waiting) 2 /\
  exists s',
    get_twice byte_waiting = Some ((0x55, 0x55), s') /\
    rx_ready (world s') = false.
Proof.
  assert (Q : no_arrival (world byte_waiting) 2).
  { intros i Hi. destruct i as [|[|i]]; [reflexivity | reflexivity | lia]. }
  split; [exact Q|].
  destruct (get_rereads_holding_register byte_waiting Q) as (s' & E & _ & _ & Y).
  exists s'. split; [exact E | exact Y].
Defined.

(** ** [clear]: every latched flag goes *)

Lemma w1c_clears_all st v e w :
  Z.land st w = Z.land v w ->
  Z.land (Z.ldiff st (Z.land (Z.lor v e) w)) w = 0.
Proof.
  intros H. apply Z.bits_inj'. intros n _.
  rewrite Z.land_spec, Z.ldiff_spec, Z.land_spec, Z.lor_spec, Z.bits_0.
  assert (Hn : Z.testbit st n && Z.testbit w n = Z.testbit v n && Z.testbit w n)
    by now rewrite <- !Z.land_spec, H.
  destruct (Z.testbit st n), (Z.testbit v n), (Z.testbit e n), (Z.testbit w n);
    try reflexivity; discriminate Hn.
Qed.

Lemma scrubbed_all_flags w :
  quiet_rx w (now w + 2) = true ->
  quiet_rx w (now w + 3) = true ->
  Z.land (stat (usart (scrubbed w))) STAT_W1C = 0.
Proof.
  intros Q2 Q3. unfold scrubbed, rx_read. cbv zeta.
  set (w2 := hw_step (hw_step w)).
  set (w3 := poke USART1_STAT (Z.lor (stat (usart w2)) 24576) w2).
  assert (Q2' : quiet_rx w2 (now w2) = true).
  { unfold quiet_rx, w2. rewrite !hw_sched_step, !now_step.
    replace (S (S (now w))) with (now w + 2)%nat by lia. exact Q2. }
  assert (Q3' : quiet_rx w3 (now w3) = true).
  { unfold quiet_rx, w3, w2.
    rewrite hw_sched_poke, now_poke, !hw_sched_step, !now_step.
    replace (S (S (S (now w)))) with (now w + 3)%nat by lia. exact Q3. }
  cbn [reg_read snd usart with_usart stat].
  rewrite ldiff_keeps by reflexivity.
  destruct (quiet_step_stat STAT_W1C w3 eq_refl Q3') as [-> _].
  unfold w3, poke. cbn [reg_write usart with_usart stat].
  apply w1c_clears_all.
  now destruct (quiet_step_stat STAT_W1C w2 eq_refl Q2') as [-> _].
Qed.

(** X9.  The write-back of [clear] is a read-modify-write of the whole
    status word, so it acknowledges every latched flag that was up, not the
    framing and parity flags alone: when [clear] finds an error flag and no
    character is received behind its second status read, every
    write-one-to-clear flag of the status register, a pending overrun
    included, reads as clear afterwards. *)
Theorem clear_acknowledges_every_latched_flag (s : Sys) :
  rx_error (elapse 1 (world s)) = true ->
  quiet_rx (world s) (now (world s) + 2) = true ->
  quiet_rx (world s) (now (world s) + 3) = true ->
  exists s',
    clear s = Some (tt, s') /\
    Z.land (stat (usart (world s'))) STAT_W1C = 0 /\
    has_bits (stat (usart (world s'))) OVERRUNINT = false.
Proof.
  intros X Q2 Q3. rewrite clear_run. cbn [elapse] in X. rewrite X.
  eexists. split; [reflexivity|]. cbn [world].
  pose proof (scrubbed_all_flags _ Q2 Q3) as A.
  split; [exact A|].
  apply has_bits_false.
  change OVERRUNINT with (Z.land STAT_W1C OVERRUNINT).
  now rewrite Z.land_assoc, A.
Qed.

Lemma clear_acknowledges_every_latched_flag_witness :
  has_bits (stat (usart (elapse 1 (world error_and_overrun)))) OVERRUNINT = true /\
  exists s',
    clear error_and_overrun = Some (tt, s') /\
    stat (usart (world s')) = 0.
Proof.
  split; [reflexivity|].
  destruct (clear_acknowledges_every_latched_flag error_and_overrun)
    as (s' & E & _ & _); [reflexivity | reflexivity | reflexivity |].
  exists s'. split; [exact E|].
  rewrite clear_run in E. change (rx_error (hw_step (world error_and_overrun))) with true in E.
  cbv iota in E. injection E as <-. reflexivity.
Defined.

(** ** [getEcho]: when it returns, and what it leaves behind *)

Lemma fruitless_cons w n :
  rx_ready (hw_step w) = false ->
  expired (hw_step (hw_step w)) = false ->
  fruitless (hw_step (hw_step w)) n ->
  fruitless w (S n).
Proof.
  intros R X F [|i] Hi.
  - now split.
  - destruct (F i ltac:(lia)) as [Ri Xi].
    replace (2 * S i + 1)%nat with (S (S (2 * i + 1))) by lia.
    replace (2 * S i + 2)%nat with (S (S (2 * i + 2))) by lia.
    now split.
Qed.

(** The poll at which the loop ended. *)
Lemma getEcho_poll_ends fuel : forall s r s',
  getEcho_poll fuel s = Some (r, s') ->
  exists n,
    (n < fuel)%nat /\ fruitless (world s) n /\
    if r
    then rx_ready (elapse (2 * n + 1) (world s)) = false /\
         expired (elapse (2 * n + 2) (world s)) = true
    else rx_ready (elapse (2 * n + 1) (world s)) = true.
Proof.
  induction fuel as [|fuel IH]; intros s r s' E; [discriminate|].
  destruct (rx_ready (hw_step (world s))) eqn:R.
  - cbn [getEcho_poll] in E. rewrite (bind_run _ _ _ _ _ (ready_run s)), R in E.
    unfold ret in E. inversion E; subst r s'; clear E.
    exists 0%nat. split; [lia|]. split; [intros i Hi; lia | exact R].
  - destruct (expired (hw_step (hw_step (world s)))) eqn:X.
    + cbn [getEcho_poll] in E. rewrite (bind_run _ _ _ _ _ (ready_run s)), R in E.
      rewrite (bind_run _ _ _ _ _ (rd_ctrl_run _)) in E. cbn [world trace] in E.
      unfold expired in X. rewrite X in E.
      unfold ret in E. inversion E; subst r s'; clear E.
      exists 0%nat. split; [lia|]. split; [intros i Hi; lia|]. now split.
    + rewrite (getEcho_poll_turn _ _ R X) in E.
      apply IH in E as (n & Hn & F & L). cbn [world] in F, L.
      exists (S n). split; [lia|]. split; [now apply fruitless_cons|].
      replace (2 * S n + 1)%nat with (S (S (2 * n + 1))) by lia.
      replace (2 * S n + 2)%nat with (S (S (2 * n + 2))) by lia.
      exact L.
Qed.

Lemma getEcho_poll_never fuel : forall s,
  (forall i, rx_ready (elapse (2 * i + 1) (world s)) = false /\
             expired (elapse (2 * i + 2) (world s)) = false) ->
  getEcho_poll fuel s = None.
Proof.
  induction fuel as [|fuel IH]; intros s H; [reflexivity|].
  destruct (H 0%nat) as [R X]. cbn [elapse Nat.mul Nat.add] in R, X.
  rewrite (getEcho_poll_turn _ _ R X). apply IH. cbn [world]. intros i.
  destruct (H (S i)) as [Ri Xi].
  replace (2 * S i + 1)%nat with (S (S (2 * i + 1))) in Ri by lia.
  replace (2 * S i + 2)%nat with (S (S (2 * i + 2))) in Xi by lia.
  now split.
Qed.

(** X10.  The loop of [getEcho] has two ways out and no other bound: some
    amount of fuel lets [getEcho] return if and only if some poll, after
    fruitless ones, finds the receiver ready or the countdown expired.  If
    no poll ever finds either, as when the countdown never raises its
    flag and no byte comes in, [getEcho] returns for no amount of fuel. *)
Theorem getEcho_returns_iff_ready_or_expired (byte : Z) (s : Sys) :
  ((exists fuel r s', getEcho fuel byte s = Some (r, s')) <->
   (exists n, fruitless (world (armed s)) n /\
              (rx_ready (elapse (2 * n + 1) (world (armed s))) = true \/
               expired (elapse (2 * n + 2) (world (armed s))) = true))) /\
  ((forall i, rx_ready (elapse (2 * i + 1) (world (armed s))) = false /\
              expired (elapse (2 * i + 2) (world (armed s))) = false) ->
   forall fuel, getEcho fuel byte s = None).
Proof.
  split; [split|].
  - intros (fuel & r & s' & E). unfold getEcho in E.
    rewrite (bind_run _ _ _ _ _ (getEcho_arm_run s)) in E.
    apply bind_inv in E as (t & s1 & E1 & _).
    apply getEcho_poll_ends in E1 as (n & _ & F & L).
    exists n. split; [exact F|]. destruct t; [right; apply L | left; exact L].
  - intros (n & F & L).
    destruct (rx_ready (elapse (2 * n + 1) (world (armed s)))) eqn:R.
    + destruct (getEcho_echo_run byte s n (S n) F R ltac:(lia)) as (s' & E & _).
      eexists (S n), _, s'. exact E.
    + destruct L as [L | X]; [discriminate L|].
      destruct (getEcho_poll_expired n (armed s) (S n) F R X ltac:(lia))
        as (tr & E & _).
      exists (S n), false. eexists. unfold getEcho.
      rewrite (bind_run _ _ _ _ _ (getEcho_arm_run s)).
      rewrite (bind_run _ _ _ _ _ E). reflexivity.
  - intros H fuel. unfold getEcho.
    rewrite (bind_run _ _ _ _ _ (getEcho_arm_run s)).
    unfold bind. now rewrite (getEcho_poll_never fuel (armed s) H).
Qed.

Lemma getEcho_returns_iff_ready_or_expired_witness :
  (forall i, rx_ready (elapse (2 * i + 1) (world (armed (boot silence)))) = false /\
             expired (elapse (2 * i + 2) (world (armed (boot silence)))) = false) /\
  getEcho 50 0x55 (boot silence) = None.
Proof.
  assert (H : forall i,
             rx_ready (elapse (2 * i + 1) (world (armed (boot silence)))) = false /\
             expired (elapse (2 * i + 2) (world (armed (boot silence)))) = false).
  { assert (U : forall k w, hw w = silence ->
                            usart (elapse k w) = usart w /\ systick (elapse k w) = systick w).
    { induction k as [|k IHk]; intros w Hw; [now split|].
      cbn [elapse].
      assert (S1 : hw_step w = with_now (S (now w)) w).
      { unfold hw_step. now rewrite Hw. }
      rewrite S1. apply (IHk (with_now (S (now w)) w)). exact Hw. }
    intros i. unfold rx_ready, expired.
    destruct (U (2 * i + 1)%nat (world (armed (boot silence))) eq_refl) as [-> _].
    destruct (U (2 * i + 2)%nat (world (armed (boot silence))) eq_refl) as [_ ->].
    split; reflexivity. }
  split; [exact H|].
  exact (proj2 (getEcho_returns_iff_ready_or_expired 0x55 (boot silence)) H 50%nat).
Defined.

Lemma timer_setup_step w : timer_setup (hw_step w) = timer_setup w.
Proof.
  apply (static_step timer_setup); [|reflexivity].
  intros ev w0. destruct ev; try reflexivity. cbn [hw_event].
  destruct (has_bits (ctrl (systick w0)) SysTick_CTRL_ENABLE_Msk) eqn:En; [|reflexivity].
  unfold timer_setup. cbn [systick with_systick load ctrl]. f_equal.
  apply has_bits_land. rewrite Z.land_lor_distr_l.
  change (Z.land COUNTFLAG SysTick_CTRL_ENABLE_Msk) with 0. apply Z.lor_0_r.
Qed.

Lemma kept_step w : kept_while_polling (hw_step w) = kept_while_polling w.
Proof.
  unfold kept_while_polling.
  now rewrite timer_setup_step, regs_and_pins_step, sent_step.
Qed.

Lemma kept_ctrl_read w : kept_while_polling (ctrl_read w) = kept_while_polling w.
Proof.
  unfold kept_while_polling, ctrl_read, timer_setup, regs_and_pins.
  cbn [reg_read snd systick with_systick load ctrl mem gpio usart]. do 3 f_equal.
  apply has_bits_land. now apply ldiff_keeps.
Qed.

Lemma kept_rx_read w : kept_while_polling (rx_read w) = kept_while_polling w.
Proof.
  rewrite <- (kept_step w). reflexivity.
Qed.

Lemma kept_poke_timer r v w :
  timer_reg r = true ->
  regs_and_pins (poke r v w) = regs_and_pins w /\
  sent (usart (poke r v w)) = sent (usart w).
Proof.
  intros T. rewrite <- (regs_and_pins_step w), <- (sent_step w). unfold poke.
  destruct r; try discriminate T; now split.
Qed.

Lemma no_write_app (tr tr' : list Access) :
  Forall (fun a => is_write a = false) tr ->
  Forall (fun a => is_write a = false) tr' ->
  Forall (fun a => is_write a = false) (tr ++ tr').
Proof. intros A B. apply Forall_app. now split. Qed.

Lemma getEcho_poll_keeps fuel : forall s r s',
  getEcho_poll fuel s = Some (r, s') ->
  kept_while_polling (world s') = kept_while_polling (world s) /\
  exists tr, trace s' = trace s ++ tr /\ Forall (fun a => is_write a = false) tr.
Proof.
  induction fuel as [|fuel IH]; intros s r s' E; [discriminate|].
  cbn [getEcho_poll] in E. rewrite (bind_run _ _ _ _ _ (ready_run s)) in E.
  destruct (rx_ready (hw_step (world s))).
  - unfold ret in E. inversion E; subst r s'; clear E. cbn [world trace].
    split; [apply kept_step|]. eexists. split; [reflexivity|]. now repeat constructor.
  - rewrite (bind_run _ _ _ _ _ (rd_ctrl_run _)) in E. cbn [world trace] in E.
    destruct (has_bits (ctrl (systick (hw_step (hw_step (world s))))) COUNTFLAG).
    + unfold ret in E. inversion E; subst r s'; clear E. cbn [world trace].
      split; [now rewrite kept_ctrl_read, !kept_step|].
      eexists. rewrite <- app_assoc. split; [reflexivity|]. now repeat constructor.
    + apply IH in E as (K & tr & T & W). cbn [world trace] in K, T.
      split; [now rewrite K, kept_ctrl_read, !kept_step|].
      exists ([Rd USART1_STAT (stat (usart (hw_step (world s))));
               Rd SysTick_CTRL (ctrl (systick (hw_step (hw_step (world s)))))] ++ tr).
      split; [rewrite T; now rewrite <- !app_assoc|].
      apply no_write_app; [now repeat constructor | exact W].
Qed.

(** X11.  Whichever way [getEcho] returns, its only writes are the three
    that arm the countdown, made first; everything after is a read.  It
    never stops the countdown: on return the timer is still enabled with
    the 20 ms reload value.  The plain registers, the pins and the record
    of transmitted bytes are as before the call. *)
Theorem getEcho_leaves_countdown_running (fuel : nat) (byte : Z) (s s' : Sys) (r : bool) :
  getEcho fuel byte s = Some (r, s') ->
  (exists tr,
      trace s' = trace s ++ arm_accesses (world s) ++ tr /\
      Forall (fun a => is_write a = false) tr) /\
  has_bits (ctrl (systick (world s'))) SysTick_CTRL_ENABLE_Msk = true /\
  load (systick (world s')) = Z.land (echo_ticks (world s)) 0xFFFFFF /\
  regs_and_pins (world s') = regs_and_pins (world s) /\
  sent (usart (world s')) = sent (usart (world s)).
Proof.
  unfold getEcho. intros E.
  rewrite (bind_run _ _ _ _ _ (getEcho_arm_run s)) in E.
  apply bind_inv in E as (t & s1 & E1 & E).
  apply getEcho_poll_keeps in E1 as (K1 & tr & T & W).
  assert (K : kept_while_polling (world s') = kept_while_polling (world (armed s)) /\
              exists tr', trace s' = trace s1 ++ tr' /\
                          Forall (fun a => is_write a = false) tr').
  { destruct t; cbv beta iota in E.
    - unfold ret in E. inversion E; subst r s'; clear E.
      split; [exact K1|]. exists []. now rewrite app_nil_r.
    - rewrite (bind_run _ _ _ _ _ (get_run _)) in E. unfold ret in E.
      inversion E; subst r s'; clear E. cbn [world trace].
      split; [now rewrite kept_rx_read|].
      eexists. split; [reflexivity|]. now repeat constructor. }
  destruct K as (K & tr' & T' & W').
  destruct (armed_countdown s) as (L & En).
  pose proof (f_equal (fun t => fst (fst (fst t))) K) as HL.
  pose proof (f_equal (fun t => snd (fst (fst t))) K) as HE.
  pose proof (f_equal (fun t => snd (fst t)) K) as HR.
  pose proof (f_equal snd K) as HS.
  cbn [kept_while_polling timer_setup fst snd] in HL, HE, HR, HS.
  split; [|split; [|split; [|split]]].
  - exists (tr ++ tr'). rewrite T', T. unfold armed. cbn [trace].
    split; [now rewrite <- !app_assoc | now apply no_write_app].
  - now rewrite HE.
  - now rewrite HL.
  - rewrite HR. unfold armed. cbn [world].
    destruct (kept_poke_timer SysTick_CTRL
                (Z.lor SysTick_CTRL_CLKSOURCE_Msk SysTick_CTRL_ENABLE_Msk)
                (poke SysTick_VAL 0 (poke SysTick_LOAD (echo_ticks (world s)) (world s)))
                eq_refl) as [-> _].
    destruct (kept_poke_timer SysTick_VAL 0
                (poke SysTick_LOAD (echo_ticks (world s)) (world s)) eq_refl) as [-> _].
    now destruct (kept_poke_timer SysTick_LOAD (echo_ticks (world s)) (world s) eq_refl)
      as [-> _].
  - rewrite HS. unfold armed. cbn [world].
    destruct (kept_poke_timer SysTick_CTRL
                (Z.lor SysTick_CTRL_CLKSOURCE_Msk SysTick_CTRL_ENABLE_Msk)
                (poke SysTick_VAL 0 (poke SysTick_LOAD (echo_ticks (world s)) (world s)))
                eq_refl) as [_ ->].
    destruct (kept_poke_timer SysTick_VAL 0
                (poke SysTick_LOAD (echo_ticks (world s)) (world s)) eq_refl) as [_ ->].
    now destruct (kept_poke_timer SysTick_LOAD (echo_ticks (world s)) (world s) eq_refl)
      as [_ ->].
Qed.

Lemma getEcho_leaves_countdown_running_witness :
  exists s',
    getEcho 2 0x55 echo_too_late = Some (false, s') /\
    has_bits (ctrl (systick (world s'))) SysTick_CTRL_ENABLE_Msk = true /\
    load (systick (world s')) = 1440000.
Proof.
  assert (E : exists s', getEcho 2 0x55 echo_too_late = Some (false, s')).
  { eexists. vm_compute. reflexivity. }
  destruct E as (s' & E). exists s'. split; [exact E|].
  destruct (getEcho_leaves_countdown_running _ _ _ _ _ E) as (_ & En & L & _).
  split; [exact En | exact L].
Defined.

(** X12.  For every 32-bit core clock the reload value [getEcho] computes,
    [EchoTimeout * (SystemCoreClock / 1000)], does not wrap in 32-bit
    arithmetic; and below 838.861 MHz it fits the 24 bits the reload
    register keeps, so the countdown is armed with exactly 20 times the
    whole number of ticks per millisecond. *)
Theorem getEcho_arms_twenty_milliseconds (s : Sys) :
  0 <= SystemCoreClock (world s) < 2 ^ 32 ->
  exists s',
    getEcho_arm s = Some (tt, s') /\
    trace s' = trace s ++ [Wr SysTick_LOAD (20 * (SystemCoreClock (world s) / 1000));
                           Wr SysTick_VAL 0; Wr SysTick_CTRL 5] /\
    (SystemCoreClock (world s) < 838861000 ->
     load (systick (world s')) = 20 * (SystemCoreClock (world s) / 1000)).
Proof.
  intros R. rewrite getEcho_arm_run. eexists. split; [reflexivity|].
  assert (B : 0 <= SystemCoreClock (world s) / 1000 < 4294968).
  { split; [apply Z.div_pos; lia | apply Z.div_lt_upper_bound; lia]. }
  assert (Tk : echo_ticks (world s) = 20 * (SystemCoreClock (world s) / 1000)).
  { unfold echo_ticks, EchoTimeout. apply Z.mod_small. lia. }
  split.
  - unfold armed, arm_accesses. cbn [trace]. now rewrite Tk.
  - intros Hc. destruct (armed_countdown s) as (L & _). rewrite L, Tk.
    change 16777215 with (Z.ones 24). rewrite Z.land_ones by lia.
    apply Z.mod_small.
    assert (SystemCoreClock (world s) / 1000 < 838861)
      by (apply Z.div_lt_upper_bound; lia).
    lia.
Qed.

Lemma getEcho_arms_twenty_milliseconds_witness :
  0 <= SystemCoreClock (world (boot silence)) < 2 ^ 32 /\
  exists s',
    getEcho_arm (boot silence) = Some (tt, s') /\
    trace s' = [Wr SysTick_LOAD 1440000; Wr SysTick_VAL 0; Wr SysTick_CTRL 5] /\
    load (systick (world s')) = 1440000.
Proof.
  assert (R : 0 <= SystemCoreClock (world (boot silence)) < 2 ^ 32).
  { vm_compute. split; [discriminate | reflexivity]. }
  split; [exact R|].
  destruct (getEcho_arms_twenty_milliseconds (boot silence) R) as (s' & E & T & L).
  exists s'. split; [exact E|]. split; [exact T|]. apply L. reflexivity.
Defined.

Lemma waiting_byte_elapse k : forall w,
  rx_ready w = true ->
  rx_ready (elapse k w) = true /\ rxdat (usart (elapse k w)) = rxdat (usart w).
Proof.
  induction k as [|k IH]; intros w R; [now split|].
  cbn [elapse].
  assert (R' : rx_ready (hw_step w) = true /\ rxdat (usart (hw_step w)) = rxdat (usart w)).
  { unfold rx_ready. rewrite usart_step. now apply waiting_byte_stays. }
  destruct R' as [R1 D1]. destruct (IH _ R1) as [R2 D2].
  split; [exact R2 | now rewrite D2].
Qed.

(** X13.  [getEcho] does not empty the receiver before it waits.  If a
    byte is already waiting when it is called, the first poll finds the
    receiver ready and [getEcho] compares that old byte with [byte]; a
    character arriving meanwhile is lost to overrun. *)
Theorem getEcho_compares_stale_byte (byte : Z) (s : Sys) (fuel : nat) :
  rx_ready (world s) = true ->
  (0 < fuel)%nat ->
  exists s',
    getEcho fuel byte s = Some (rxdat (usart (world s)) mod 256 =? byte, s') /\
    rx_reads (trace s') = (rx_reads (trace s) + 1)%nat /\
    rx_ready (world s') = false.
Proof.
  intros R Hf.
  destruct (waiting_byte_elapse 4 _ R) as [R4 D4].
  assert (U : usart (elapse 1 (world (armed s))) = usart (elapse 4 (world s)))
    by apply (usart_armed 1 s).
  assert (R1 : rx_ready (elapse (2 * 0 + 1) (world (armed s))) = true).
  { unfold rx_ready in R4 |- *. cbn [Nat.mul Nat.add]. now rewrite U. }
  destruct (getEcho_echo_run byte s 0 fuel) as (s' & E & C & Y);
    [intros i Hi; lia | exact R1 | exact Hf |].
  exists s'. split; [|split; [exact C | exact Y]].
  rewrite E. cbn [Nat.mul Nat.add]. now rewrite U, D4.
Qed.

Lemma getEcho_compares_stale_byte_witness :
  rx_ready (world stale_byte) = true /\
  exists s',
    getEcho 1 0x55 stale_byte = Some (false, s') /\
    rx_reads (trace s') = 1%nat.
Proof.
  split; [reflexivity|].
  destruct (getEcho_compares_stale_byte 0x55 stale_byte 1 eq_refl) as (s' & E & C & _);
    [lia|].
  exists s'. split; [exact E | exact C].
Defined.

(** ** [send]: two bytes in a row *)

Lemma sent_elapse k w : sent (usart (elapse k w)) = sent (usart w).
Proof.
  revert w. induction k as [|k IH]; intros w; [reflexivity|].
  cbn [elapse]. now rewrite IH, sent_step.
Qed.

(** How [send] returns, when it does. *)
Lemma send_inv fuel byte s s' :
  send fuel byte s = Some (tt, s') ->
  exists n,
    first_tx_ready (world s) n /\
    s' = mkSys (poke USART1_TXDAT byte (elapse (S n) (world s)))
               (trace s ++ stat_reads (S n) (world s) ++ [Wr USART1_TXDAT byte]).
Proof.
  unfold send. intros E. apply bind_inv in E as ([] & s1 & E1 & E).
  pose proof (send_wait_inv _ _ _ E1) as (n & Hn & Hlo & Hr).
  rewrite (send_wait_ready n s fuel Hlo Hr Hn) in E1.
  inversion E1; subst s1; clear E1.
  unfold UARTSendByte in E. rewrite wr_run in E. cbn [world trace] in E.
  inversion E; subst s'; clear E.
  exists n. split; [now split|]. now rewrite <- app_assoc.
Qed.

Lemma sent_poke_txdat v w :
  sent (usart (poke USART1_TXDAT v w)) = sent (usart w) ++ [v].
Proof. unfold poke. cbn [reg_write usart with_usart sent]. now rewrite sent_step. Qed.

Lemma tx_ready_poke_txdat v w : tx_ready (poke USART1_TXDAT v w) = false.
Proof.
  unfold tx_ready, poke. cbn [reg_write usart with_usart stat].
  apply has_bits_false, Z.land_ldiff.
Qed.

(** X14.  Two calls of [send] in a row put their bytes on the wire in call
    order, one write of the transmit register each.  The first write drops
    transmit-ready, so the second call writes only after a later status
    read has shown the transmitter ready again: the second byte never
    overwrites the first. *)
Theorem send_twice_keeps_order (f1 f2 : nat) (b1 b2 : Z) (s s' : Sys) :
  (send f1 b1 ;; send f2 b2) s = Some (tt, s') ->
  sent (usart (world s')) = sent (usart (world s)) ++ [b1; b2] /\
  exists n1 n2 w1,
    first_tx_ready (world s) n1 /\
    w1 = poke USART1_TXDAT b1 (elapse (S n1) (world s)) /\
    tx_ready w1 = false /\
    first_tx_ready w1 n2 /\
    trace s' = trace s ++ stat_reads (S n1) (world s) ++ [Wr USART1_TXDAT b1]
                       ++ stat_reads (S n2) w1 ++ [Wr USART1_TXDAT b2].
Proof.
  intros E. apply bind_inv in E as ([] & s1 & E1 & E2).
  apply send_inv in E1 as (n1 & F1 & ->).
  apply send_inv in E2 as (n2 & F2 & ->). cbn [world trace] in *.
  split.
  - rewrite sent_poke_txdat, sent_elapse, sent_poke_txdat, sent_elapse.
    now rewrite <- app_assoc.
  - exists n1, n2, (poke USART1_TXDAT b1 (elapse (S n1) (world s))).
    split; [exact F1|]. split; [reflexivity|].
    split; [apply tx_ready_poke_txdat|]. split; [exact F2|].
    now rewrite <- !app_assoc.
Qed.

Lemma send_twice_keeps_order_witness :
  exists s',
    (send 1 0x81 ;; send 3 0x7E) tx_drains_twice = Some (tt, s') /\
    sent (usart (world s')) = [0x81; 0x7E] /\
    trace s' = [Rd USART1_STAT 4; Wr USART1_TXDAT 0x81;
                Rd USART1_STAT 0; Rd USART1_STAT 4; Wr USART1_TXDAT 0x7E].
Proof.
  assert (E : exists s', (send 1 0x81 ;; send 3 0x7E) tx_drains_twice = Some (tt, s') /\
                         trace s' = [Rd USART1_STAT 4; Wr USART1_TXDAT 0x81;
                                     Rd USART1_STAT 0; Rd USART1_STAT 4;
                                     Wr USART1_TXDAT 0x7E]).
  { eexists. split; vm_compute; reflexivity. }
  destruct E as (s' & E & T). exists s'. split; [exact E|]. split; [|exact T].
  exact (proj1 (send_twice_keeps_order _ _ _ _ _ _ E)).
Defined.
